(** * docetl/operations/utils/llm.py

    A shallow embedding of the call-hardening helpers of
    [docetl.operations.utils.llm] :

    - [InvalidOutputError] and its [__str__] rendering,
    - the thread based [timeout] decorator,
    - [truncate_messages], which shortens the longest message of a
      conversation so that a prompt fits a model's input context.

    Python data is modelled as follows.  An [int] is a [Z].  A [str] is a
    [string] whose characters are read as the code points 0..255.  A [dict]
    with string keys is an association list in insertion order.  Objects that
    the code shares and mutates (the message dicts, the message lists, the
    one-slot [result] list of the decorator) live in an explicit store and are
    referred to by location. *)

From Stdlib Require Import ZArith NArith List String Ascii Lia DecimalString.
From stdpp Require Import base option list gmap strings.

Set Warnings "-register-all".
Local Open Scope Z_scope.

(** ** Python text *)

Module PyStr.

Definition LF : ascii := ascii_of_N 10.
Definition CR : ascii := ascii_of_N 13.
Definition TAB : ascii := ascii_of_N 9.
Definition BS : ascii := ascii_of_N 8.
Definition FF : ascii := ascii_of_N 12.
Definition BACKSLASH : ascii := ascii_of_N 92.
Definition SQUOTE : ascii := ascii_of_N 39.
Definition DQUOTE : ascii := ascii_of_N 34.

Definition chr (c : ascii) : string := String c EmptyString.

(** [len(s)] *)
Definition len (s : string) : Z := Z.of_nat (String.length s).

(** [str(n)] for an [int]: the decimal numeral, with a leading minus sign
    for negative numbers. *)
Definition str_of_int (n : Z) : string :=
  NilZero.string_of_int (Z.to_int n).

Fixpoint concat (l : list string) : string :=
  match l with
  | [] => EmptyString
  | s :: l' => s +:+ concat l'
  end.

(** [sep.join(l)] *)
Fixpoint join (sep : string) (l : list string) : string :=
  match l with
  | [] => EmptyString
  | [s] => s
  | s :: l' => s +:+ sep +:+ join sep l'
  end.

Fixpoint contains_char (c : ascii) (s : string) : bool :=
  match s with
  | EmptyString => false
  | String d s' => if Ascii.eqb c d then true else contains_char c s'
  end.

(** [s.split(sep)] for a one-character separator: the pieces between the
    occurrences of [sep], never an empty list. *)
Fixpoint split_acc (sep : ascii) (cur : string) (s : string) : list string :=
  match s with
  | EmptyString => [cur]
  | String c s' =>
      if Ascii.eqb c sep then cur :: split_acc sep EmptyString s'
      else split_acc sep (cur +:+ chr c) s'
  end.

Definition split (sep : ascii) (s : string) : list string :=
  split_acc sep EmptyString s.

(** [s.split("\n")] *)
Definition lines (s : string) : list string := split LF s.

(** [l[-1]] on the result of a split (which is never empty). *)
Definition last_piece (l : list string) : string := List.last l EmptyString.

Definition hex_digit (n : N) : ascii :=
  if (n <? 10)%N then ascii_of_N (48 + n) else ascii_of_N (87 + n).

(** Two lower-case hexadecimal digits of a code point below 256. *)
Definition hex2 (c : ascii) : string :=
  let n := N_of_ascii c in
  String (hex_digit (n / 16)) (String (hex_digit (n mod 16)) EmptyString).

(** [str.isprintable] on the code points 0..255: the graphic ASCII
    characters and the space, and 0xA1..0xFF except the soft hyphen. *)
Definition is_printable (c : ascii) : bool :=
  let n := N_of_ascii c in
  ((32 <=? n)%N && (n <? 127)%N) || ((161 <=? n)%N && negb (n =? 173)%N).

(** The quote [repr] picks: double quotes when the text has a single quote
    and no double quote, single quotes otherwise. *)
Definition repr_quote (s : string) : ascii :=
  if contains_char SQUOTE s && negb (contains_char DQUOTE s)
  then DQUOTE else SQUOTE.

Definition repr_char (q : ascii) (c : ascii) : string :=
  if Ascii.eqb c q || Ascii.eqb c BACKSLASH then String BACKSLASH (chr c)
  else if Ascii.eqb c TAB then String BACKSLASH "t"
  else if Ascii.eqb c LF then String BACKSLASH "n"
  else if Ascii.eqb c CR then String BACKSLASH "r"
  else if is_printable c then chr c
  else String BACKSLASH ("x" +:+ hex2 c).

Fixpoint repr_body (q : ascii) (s : string) : string :=
  match s with
  | EmptyString => EmptyString
  | String c s' => repr_char q c +:+ repr_body q s'
  end.

(** [repr(s)] for a [str]. *)
Definition repr_str (s : string) : string :=
  let q := repr_quote s in
  String q (repr_body q s +:+ chr q).

(** The escape of one character in [json.dumps] (with the default
    [ensure_ascii=True]): everything outside space..tilde is escaped. *)
Definition json_char (c : ascii) : string :=
  if Ascii.eqb c DQUOTE || Ascii.eqb c BACKSLASH then String BACKSLASH (chr c)
  else if Ascii.eqb c LF then String BACKSLASH "n"
  else if Ascii.eqb c CR then String BACKSLASH "r"
  else if Ascii.eqb c TAB then String BACKSLASH "t"
  else if Ascii.eqb c BS then String BACKSLASH "b"
  else if Ascii.eqb c FF then String BACKSLASH "f"
  else if ((32 <=? N_of_ascii c)%N && (N_of_ascii c <? 127)%N) then chr c
  else String BACKSLASH ("u00" +:+ hex2 c).

Fixpoint json_body (s : string) : string :=
  match s with
  | EmptyString => EmptyString
  | String c s' => json_char c +:+ json_body s'
  end.

Definition json_str (s : string) : string :=
  String DQUOTE (json_body s +:+ chr DQUOTE).

End PyStr.

(** ** Python values that are printed *)

(** The values that reach a format field of [InvalidOutputError.__str__]:
    [None], booleans, integers, text, lists and dicts with text keys. *)
Inductive pyval : Type :=
  | PNone
  | PBool (b : bool)
  | PInt (n : Z)
  | PStr (s : string)
  | PList (items : list pyval)
  | PDict (entries : list (string * pyval)).

(** [repr(v)].  Lists and dicts print their elements with [repr]. *)
Fixpoint py_repr (v : pyval) : string :=
  match v with
  | PNone => "None"
  | PBool true => "True"
  | PBool false => "False"
  | PInt n => PyStr.str_of_int n
  | PStr s => PyStr.repr_str s
  | PList items =>
      "[" +:+ PyStr.join ", " (List.map py_repr items) +:+ "]"
  | PDict entries =>
      "{" +:+ PyStr.join ", "
                (List.map (fun kv => PyStr.repr_str (fst kv) +:+ ": " +:+ py_repr (snd kv))
                          entries) +:+ "}"
  end.

(** [str(v)], which is what an f-string field [{v}] inserts: the text itself
    for a [str], [repr] for everything else here. *)
Definition py_str (v : pyval) : string :=
  match v with
  | PStr s => s
  | _ => py_repr v
  end.

(** ** Exceptions *)

(** The exception classes that matter here, with the part of Python's class
    hierarchy that [except Exception] and [isinstance(_, Exception)] look at.
    [Custom name base] is a class declared by a program, such as
    [InvalidOutputError] below. *)
Inductive exc_class : Type :=
  | BaseException
  | SystemExit
  | KeyboardInterrupt
  | GeneratorExit
  | Exception
  | OSError
  | TimeoutError
  | ValueError
  | KeyError
  | TypeError
  | RuntimeError
  | Custom (name : string) (base : exc_class).

(** [issubclass(c, Exception)] *)
Fixpoint is_Exception (c : exc_class) : bool :=
  match c with
  | BaseException | SystemExit | KeyboardInterrupt | GeneratorExit => false
  | Exception | OSError | TimeoutError | ValueError | KeyError | TypeError
  | RuntimeError => true
  | Custom _ base => is_Exception base
  end.

(** An exception object: its class and the arguments it was built with. *)
Record exn : Type := mk_exn {
  exn_class : exc_class;
  exn_args : list pyval
}.

(** ** InvalidOutputError *)

(** [class InvalidOutputError(Exception)] with the five attributes that
    [__init__] stores; [tools] defaults to [None]. *)
Record InvalidOutputError : Type := mk_InvalidOutputError {
  message : string;
  output : string;
  expected_schema : list (string * pyval);
  messages : list (list (string * string));
  tools : option (list (list (string * string)))
}.

Definition InvalidOutputError_class : exc_class :=
  Custom "InvalidOutputError" Exception.

(** A [Dict[str, str]] as a printable value. *)
Definition pyval_of_dict (d : list (string * string)) : pyval :=
  PDict (List.map (fun kv => (fst kv, PStr (snd kv))) d).

Definition pyval_of_dicts (l : list (list (string * string))) : pyval :=
  PList (List.map pyval_of_dict l).

Definition pyval_of_tools (t : option (list (list (string * string)))) : pyval :=
  match t with
  | None => PNone
  | Some l => pyval_of_dicts l
  end.

(** [InvalidOutputError.__str__]: five f-string pieces, joined by adjacency. *)
Definition InvalidOutputError_str (e : InvalidOutputError) : string :=
  PyStr.concat
    [ py_str (PStr (message e)); PyStr.chr PyStr.LF;
      "Invalid output: "; py_str (PStr (output e)); PyStr.chr PyStr.LF;
      "Expected schema: "; py_str (PDict (expected_schema e)); PyStr.chr PyStr.LF;
      "Messages sent to LLM: "; py_str (pyval_of_dicts (messages e)); PyStr.chr PyStr.LF;
      "Tool calls generated by LLM: "; py_str (pyval_of_tools (tools e)) ].

(** The exception object that [super().__init__(self.message)] builds. *)
Definition InvalidOutputError_exn (e : InvalidOutputError) : exn :=
  mk_exn InvalidOutputError_class [PStr (message e)].

Definition sample_error : InvalidOutputError :=
  mk_InvalidOutputError
    "Could not parse output"
    "{not json"
    [("name", PStr "string"); ("age", PStr "integer")]
    [[("role", "user"); ("content", "Extract the name and the age")]]
    None.

(** ** The timeout decorator *)

Module Guard.

Definition loc := positive.

(** Any object a callable may hand back or that [result[0]] may hold: a
    plain value or an exception object. *)
Inductive obj : Type :=
  | Val (v : pyval)
  | ExnObj (e : exn).

(** [isinstance(o, Exception)] *)
Definition isinstance_Exception (o : obj) : bool :=
  match o with
  | Val _ => false
  | ExnObj e => is_Exception (exn_class e)
  end.

(** What one call [func(...)] does when it runs on its own
    thread: it returns an object or raises an exception some time after it
    was started, or it never finishes.  Time is counted in ticks of an
    arbitrary fixed length; [seconds] is given in the same unit. *)
Inductive behaviour : Type :=
  | Returns (after : Z) (v : obj)
  | Raises (after : Z) (e : exn)
  | Hangs.

(** A started thread: when its [target] ends (never, for [None]), the
    store into a one-slot list it performs at that moment (if any), and
    whether it is still running. *)
Record thread : Type := mk_thread {
  finish_at : option Z;
  on_finish : option (loc * obj);
  alive : bool
}.

(** The part of the interpreter state that the decorator touches: the
    clock, the one-slot lists, and every thread started so far (a thread's
    identity is its position in [threads]). *)
Record world : Type := mk_world {
  clock : Z;
  cells : gmap loc obj;
  threads : list thread
}.

Definition empty_world : world := mk_world 0 ∅ [].

(** [result = [o]] *)
Definition alloc (o : obj) (w : world) : loc * world :=
  let l := fresh (dom (cells w)) in
  (l, mk_world (clock w) (<[l := o]> (cells w)) (threads w)).

(** The inner function [target] for a given [result] list, started at
    time [now]:
    [try: result[0] = func(...)  except Exception as e: result[0] = e].
    An exception outside the [Exception] hierarchy is not caught: the
    thread ends and stores nothing. *)
Definition target (result : loc) (func : behaviour) (now : Z) : thread :=
  match func with
  | Returns after v =>
      mk_thread (Some (now + Z.max 0 after)) (Some (result, v)) true
  | Raises after e =>
      mk_thread (Some (now + Z.max 0 after))
                (if is_Exception (exn_class e) then Some (result, ExnObj e) else None)
                true
  | Hangs => mk_thread None None true
  end.

(** [thread = threading.Thread(target=target); thread.start()] *)
Definition Thread_start (th : Z -> thread) (w : world) : nat * world :=
  (length (threads w),
   mk_world (clock w) (cells w) (threads w ++ [th (clock w)])).

Definition due (t : Z) (th : thread) : bool :=
  alive th &&
  match finish_at th with
  | Some f => f <=? t
  | None => false
  end.

(** The store a thread performs when it is let run until [t]. *)
Definition store_of (t : Z) (th : thread) (cs : gmap loc obj) : gmap loc obj :=
  if due t th then
    match on_finish th with
    | Some (l, o) => <[l := o]> cs
    | None => cs
    end
  else cs.

(** The thread after it has been let run until [t]. *)
Definition ended (t : Z) (th : thread) : thread :=
  if due t th then mk_thread (finish_at th) (on_finish th) false else th.

(** Let every running thread that ends by time [t] perform its store, in
    the order in which the threads were started. *)
Fixpoint run_threads (t : Z) (cs : gmap loc obj) (ths : list thread)
  : gmap loc obj * list thread :=
  match ths with
  | [] => (cs, [])
  | th :: rest =>
      let '(cs2, rest2) := run_threads t (store_of t th cs) rest in
      (cs2, ended t th :: rest2)
  end.

(** Time passes until [t]. *)
Definition advance (t : Z) (w : world) : world :=
  let '(cs, ths) := run_threads t (cells w) (threads w) in
  mk_world (Z.max (clock w) t) cs ths.

(** The time at which [join] returns for a running thread: when the
    thread ends or when the timeout (a negative one counts as zero) has
    elapsed, whichever is first. *)
Definition join_time (now timeout : Z) (th : thread) : Z :=
  match finish_at th with
  | Some f => Z.min f (now + Z.max 0 timeout)
  | None => now + Z.max 0 timeout
  end.

(** [thread.join(timeout)]; it returns at once for a thread that has
    ended. *)
Definition Thread_join (tid : nat) (timeout : Z) (w : world) : world :=
  match threads w !! tid with
  | Some th =>
      if alive th then advance (join_time (clock w) timeout th) w else w
  | None => w
  end.

Inductive outcome : Type :=
  | Return (o : obj)
  | Raise (e : exn).

Definition timed_out : exn := mk_exn TimeoutError [PStr "Function call timed out"].

(** [timeout(seconds)(func)(...)], that is the body of
    [wrapper].  The slot is read at the moment [join] returns.  [None]
    stands for an interpreter state that cannot arise (a slot that was
    never allocated). *)
Definition wrapper (seconds : Z) (func : behaviour) (w : world)
  : option outcome * world :=
  let '(result, w1) := alloc (ExnObj timed_out) w in
  let '(thread, w2) := Thread_start (target result func) w1 in
  let w3 := Thread_join thread seconds w2 in
  match cells w3 !! result with
  | Some (ExnObj e as o) =>
      if isinstance_Exception o then (Some (Raise e), w3)
      else (Some (Return o), w3)
  | Some o => (Some (Return o), w3)
  | None => (None, w3)
  end.

(** Every pending store goes to an allocated slot. *)
Definition wf_thread (cs : gmap loc obj) (th : thread) : Prop :=
  match on_finish th with
  | Some (l, _) => is_Some (cs !! l)
  | None => True
  end.

Definition wf (w : world) : Prop := Forall (wf_thread (cells w)) (threads w).

(** A call completes within [seconds] when it returns or raises by then. *)
Definition completes_within (seconds : Z) (func : behaviour) : Prop :=
  match func with
  | Returns after _ | Raises after _ => Z.max 0 after <= Z.max 0 seconds
  | Hangs => False
  end.

(** A call overruns [seconds] when it is still running at that time. *)
Definition overruns (seconds : Z) (func : behaviour) : Prop :=
  match func with
  | Returns after _ | Raises after _ => Z.max 0 seconds < Z.max 0 after
  | Hangs => True
  end.

(** Reading "the guard returns exactly V": the decorated call ends by
    returning the object [v] that [func] returned. *)
Definition guard_returns (w : world) (seconds after : Z) (v : obj) : Prop :=
  (wrapper seconds (Returns after v) w).1 = Some (Return v).


(** What a guarded call ends with, read off [target] and [wrapper]: the
    slot holds what the call stored by the time [join] returns, and an
    instance of [Exception] found there is raised, whether the call raised
    it or returned it. *)
Definition guard_outcome (seconds : Z) (func : behaviour) : outcome :=
  match func with
  | Returns after v =>
      if Z.max 0 after <=? Z.max 0 seconds then
        match v with
        | ExnObj e => if is_Exception (exn_class e) then Raise e else Return v
        | Val _ => Return v
        end
      else Raise timed_out
  | Raises after e =>
      if (Z.max 0 after <=? Z.max 0 seconds) && is_Exception (exn_class e)
      then Raise e else Raise timed_out
  | Hangs => Raise timed_out
  end.


End Guard.

(** ** The store of shared objects *)

Definition loc := positive.

(** A message: a [Dict[str, str]] in insertion order, without repeated keys. *)
Definition dict := list (string * string).

(** [d.get(k)] *)
Fixpoint dict_get (d : dict) (k : string) : option string :=
  match d with
  | [] => None
  | (k', v) :: d' => if String.eqb k' k then Some v else dict_get d' k
  end.

(** [d[k] = v]: the entry keeps its place when the key is there already and
    goes to the end otherwise. *)
Fixpoint dict_set (d : dict) (k v : string) : dict :=
  match d with
  | [] => [(k, v)]
  | (k', v') :: d' =>
      if String.eqb k' k then (k', v) :: d' else (k', v') :: dict_set d' k v
  end.

(** [json.dumps(d)] for a dict of strings. *)
Definition json_dumps (d : dict) : string :=
  "{" +:+ PyStr.join ", "
            (List.map (fun kv => PyStr.json_str (fst kv) +:+ ": " +:+ PyStr.json_str (snd kv)) d)
      +:+ "}".

(** The interpreter state [truncate_messages] works on: the list objects,
    the dict objects, and what has been printed to the console. *)
Record state : Type := mk_state {
  lists : gmap loc (list loc);
  dicts : gmap loc dict;
  console : list string
}.

(** How a piece of code ends: with a value, with an exception of some class,
    or [Stuck] when it follows a reference to nothing, which no Python
    program can hold. *)
Inductive result (A : Type) : Type :=
  | Ok (a : A)
  | Raised (c : exc_class)
  | Stuck.
Arguments Ok {A} a.
Arguments Raised {A} c.
Arguments Stuck {A}.

(** Code that reads and writes the store and may raise. *)
Definition Py (A : Type) : Type := state -> result A * state.

#[global] Instance Py_ret : MRet Py := fun A a s => (Ok a, s).

#[global] Instance Py_bind : MBind Py := fun A B f m s =>
  match m s with
  | (Ok a, s') => f a s'
  | (Raised c, s') => (Raised c, s')
  | (Stuck, s') => (Stuck, s')
  end.

Definition raise {A} (c : exc_class) : Py A := fun s => (Raised c, s).

(** The items of a list object. *)
Definition list_items (l : loc) : Py (list loc) := fun s =>
  match lists s !! l with
  | Some items => (Ok items, s)
  | None => (Stuck, s)
  end.

(** [l.copy()]: a new list object with the same items. *)
Definition list_copy (l : loc) : Py loc := fun s =>
  match lists s !! l with
  | Some items =>
      let l' := fresh (dom (lists s)) in
      (Ok l', mk_state (<[l' := items]> (lists s)) (dicts s) (console s))
  | None => (Stuck, s)
  end.

(** The dict object behind a reference. *)
Definition dict_at (p : loc) : Py dict := fun s =>
  match dicts s !! p with
  | Some d => (Ok d, s)
  | None => (Stuck, s)
  end.

(** [p[k]], which raises [KeyError] when the key is missing. *)
Definition getitem (p : loc) (k : string) : Py string :=
  d ← dict_at p;
  match dict_get d k with
  | Some v => mret v
  | None => raise KeyError
  end.

(** [p[k] = v], in place. *)
Definition setitem (p : loc) (k v : string) : Py unit := fun s =>
  match dicts s !! p with
  | Some d => (Ok tt, mk_state (lists s) (<[p := dict_set d k v]> (dicts s)) (console s))
  | None => (Stuck, s)
  end.

(** [rprint(text)]: the text handed to the console. *)
Definition rprint (text : string) : Py unit := fun s =>
  (Ok tt, mk_state (lists s) (dicts s) (console s ++ [text])).

(** Code that only reads the store. *)
Definition reads_only {A} (m : Py A) : Prop :=
  forall s r s', m s = (r, s') -> s' = s.

(** [len(l)] *)
Definition len {A} (l : list A) : Z := Z.of_nat (length l).

(** [l[:i]] and [l[i:]] with Python's treatment of negative and of too large
    indices. *)
Definition slice_index {A} (l : list A) (i : Z) : nat :=
  Z.to_nat (if i <? 0 then Z.max 0 (i + len l) else Z.min i (len l)).

Definition slice_to {A} (l : list A) (i : Z) : list A := firstn (slice_index l i) l.

Definition slice_from {A} (l : list A) (i : Z) : list A := skipn (slice_index l i) l.

(** A tokenizer as [tiktoken] hands it out: [encode] from text to a sequence
    of tokens and [decode] back. *)
Record Encoding : Type := mk_Encoding {
  encode : string -> list Z;
  decode : list Z -> string
}.

(** ** truncate_messages *)

Section truncate.

(** [litellm.model_cost], [docetl.utils.count_tokens] and
    [tiktoken.encoding_for_model] are defined outside this file.
    [encoding_for_model] has no result when it raises for a model it does
    not know; [gpt_4o] is the encoding that
    [tiktoken.encoding_for_model("gpt-4o")] returns. *)
Variable model_cost : gmap string (gmap string Z).
Variable count_tokens : string -> string -> Z.
Variable encoding_for_model : string -> option Encoding.
Variable gpt_4o : Encoding.

(** [model.split("/")[-1]] *)
Definition bare_model (model : string) : string :=
  PyStr.last_piece (PyStr.split "/" model).

(** [model_cost.get(model.split("/")[-1], {}).get("max_input_tokens", 8192)] *)
Definition model_input_context_length (model : string) : Z :=
  default 8192 (default ∅ (model_cost !! bare_model model) !! "max_input_tokens").

(** [sum(count_tokens(json.dumps(msg), model) for msg in messages)] *)
Fixpoint sum_tokens (model : string) (acc : Z) (items : list loc) : Py Z :=
  match items with
  | [] => mret acc
  | msg :: rest =>
      d ← dict_at msg;
      sum_tokens model (acc + count_tokens (json_dumps d) model) rest
  end.

(** The loop of [max(items, key=lambda x: len(x["content"]))] once a first
    candidate is known: a later item wins only with a strictly larger key. *)
Fixpoint max_loop (best : loc) (best_key : Z) (rest : list loc) : Py loc :=
  match rest with
  | [] => mret best
  | x :: rest' =>
      c ← getitem x "content";
      if best_key <? PyStr.len c then max_loop x (PyStr.len c) rest'
      else max_loop best best_key rest'
  end.

(** [max(items, key=lambda x: len(x["content"]))]; [ValueError] on an empty
    list. *)
Definition max_by_content_len (items : list loc) : Py loc :=
  match items with
  | [] => raise ValueError
  | x :: rest =>
      c ← getitem x "content";
      max_loop x (PyStr.len c) rest
  end.

(** [try: tiktoken.encoding_for_model(model.split("/")[-1])]
    [except Exception: tiktoken.encoding_for_model("gpt-4o")] *)
Definition resolve_encoder (model : string) : Encoding :=
  match encoding_for_model (bare_model model) with
  | Some enc => enc
  | None => gpt_4o
  end.

Definition excess_tokens (total_tokens budget : Z) : Z :=
  total_tokens - budget + 200.

Definition tokens_to_remove (encoded_content : list Z) (excess : Z) : Z :=
  Z.min (len encoded_content) excess.

Definition mid_point (encoded_content : list Z) : Z :=
  len encoded_content / 2.

(** The text of the marker, [f" ... [{tokens_to_remove} tokens truncated] ... "] *)
Definition marker_text (removed : Z) : string :=
  " ... [" +:+ PyStr.str_of_int removed +:+ " tokens truncated] ... ".

Definition truncated_encoded (encoded_content : list Z) (removed : Z)
                             (marker : list Z) : list Z :=
  slice_to encoded_content (mid_point encoded_content - removed / 2)
  ++ marker
  ++ slice_from encoded_content (mid_point encoded_content + removed / 2).

Definition warning_type (from_agent : bool) : string :=
  if negb from_agent then "User" else "Agent".

Definition warning_text (from_agent : bool) (removed total_tokens : Z) : string :=
  "[yellow]" +:+ warning_type from_agent +:+ " Warning:[/yellow] Cutting "
  +:+ PyStr.str_of_int removed +:+ " tokens from a prompt with "
  +:+ PyStr.str_of_int total_tokens +:+ " tokens...".

Definition truncate_messages (messages : loc) (model : string)
                             (from_agent : bool) : Py loc :=
  let budget := model_input_context_length model in
  items ← list_items messages;
  total_tokens ← sum_tokens model 0 items;
  if total_tokens <=? budget - 100 then mret messages
  else
    truncated_messages ← list_copy messages;
    copied ← list_items truncated_messages;
    longest_message ← max_by_content_len copied;
    content ← getitem longest_message "content";
    let excess := excess_tokens total_tokens budget in
    let encoder := resolve_encoder model in
    let encoded_content := encode encoder content in
    let removed := tokens_to_remove encoded_content excess in
    let marker := encode encoder (marker_text removed) in
    let truncated_content :=
      decode encoder (truncated_encoded encoded_content removed marker) in
    let total_tokens := len encoded_content in
    rprint (warning_text from_agent removed total_tokens);;
    setitem longest_message "content" truncated_content;;
    mret truncated_messages.

End truncate.

(** The value that [truncate_messages] computes for [truncated_content]
    (lines 90 to 98), as a function of the tokenizer, the old content and
    [excess_tokens]. *)
Definition truncated_content (encoder : Encoding) (content : string)
                             (excess : Z) : string :=
  let encoded_content := encode encoder content in
  let removed := tokens_to_remove encoded_content excess in
  decode encoder
    (truncated_encoded encoded_content removed
       (encode encoder (marker_text removed))).

(** ** A small concrete setting

    A tokenizer with one token per character, a token counter that counts
    characters, and a cost table with two entries.  The theorems below hold
    for every tokenizer, counter and table; this setting is used to run the
    code on concrete conversations. *)

Definition char_encoding : Encoding :=
  mk_Encoding
    (fun s => List.map (fun c => Z.of_N (N_of_ascii c)) (list_ascii_of_string s))
    (fun toks => string_of_list_ascii (List.map (fun t => ascii_of_N (Z.to_N t)) toks)).

Definition demo_encoding_for_model (name : string) : option Encoding :=
  if String.eqb name "tiny" then Some char_encoding else None.

Definition demo_count_tokens (text model : string) : Z := PyStr.len text.

Definition demo_model_cost : gmap string (gmap string Z) :=
  <["tiny" := {["max_input_tokens" := 300]}]>
    (<["sd3" := {["max_input_tokens" := 77; "max_tokens" := 77]}]> ∅).

Definition demo_truncate : loc -> string -> bool -> Py loc :=
  truncate_messages demo_model_cost demo_count_tokens demo_encoding_for_model
                    char_encoding.

(** [n] copies of a character. *)
Fixpoint repeat_char (c : ascii) (n : nat) : string :=
  match n with
  | O => EmptyString
  | S n' => String c (repeat_char c n')
  end.

(** A store holding the list [messages = [m1, m2]] at location 1, with
    [m1 = {"role": "system", "content": "Be brief."}] at 1 and
    [m2 = {"role": "user", "content": 400 times "a"}] at 2. *)
Definition demo_state : state :=
  mk_state
    {[ 1%positive := [1%positive; 2%positive] ]}
    (<[1%positive := [("role", "system"); ("content", "Be brief.")]]>
       {[ 2%positive := [("role", "user"); ("content", repeat_char "a" 400)] ]})
    [].

(** The conversation of [demo_state]. *)
Definition demo_conversation : list dict :=
  [ [("role", "system"); ("content", "Be brief.")];
    [("role", "user"); ("content", repeat_char "a" 400)] ].

(** The store after [truncate_messages(messages, "openai/tiny")] has run on
    [demo_state]: a second list object, the long content cut in place, and
    one warning. *)
Definition demo_state_after : state :=
  mk_state
    (<[2%positive := [1%positive; 2%positive]]> (lists demo_state))
    (<[2%positive :=
         [("role", "user");
          ("content",
           repeat_char "a" 14 +:+ " ... [373 tokens truncated] ... " +:+ repeat_char "a" 14)]]>
       (dicts demo_state))
    ["[yellow]User Warning:[/yellow] Cutting 373 tokens from a prompt with 400 tokens..."].

(** A store with two messages of 400 characters each:
    [messages = [{"role": "user", "content": 400 times "a"},
                 {"role": "assistant", "content": 400 times "b"}]]. *)
Definition two_long_messages_state : state :=
  mk_state
    {[ 1%positive := [1%positive; 2%positive] ]}
    (<[1%positive := [("role", "user"); ("content", repeat_char "a" 400)]]>
       {[ 2%positive := [("role", "assistant"); ("content", repeat_char "b" 400)] ]})
    [].

(** ** Vocabulary of the specification *)

(** The messages that a list object holds, in order, as the store has them. *)
Definition conversation (s : state) (l : loc) : option (list dict) :=
  items ← lists s !! l; mapM (fun p => dicts s !! p) items.

(** A role/content message has a [content] entry. *)
Definition has_content (d : dict) : Prop := is_Some (dict_get d "content").

(** The length of a message's content. *)
Definition content_len (d : dict) : option Z := PyStr.len <$> dict_get d "content".

(** Position [i] holds the longest content, and no earlier position holds
    one as long: the first maximum in encounter order. *)
Definition first_longest (conv : list dict) (i : nat) : Prop :=
  exists n, (conv !! i ≫= content_len) = Some n /\
    (forall j m, (conv !! j ≫= content_len) = Some m -> m <= n) /\
    (forall j m, (j < i)%nat -> (conv !! j ≫= content_len) = Some m -> m < n).

(** The text [sub] occurs in [s]. *)
Fixpoint occurs_in (sub s : string) : bool :=
  String.prefix sub s ||
  match s with
  | EmptyString => false
  | String _ s' => occurs_in sub s'
  end.

(** The conversation expected after the content of message object [k] has
    been replaced by [new]: every position that holds [k] shows the new
    content, every other position is as before. *)
Definition rewrite_content (items : list loc) (conv : list dict) (k : loc)
                           (new : string) : list dict :=
  zip_with (fun p d => if decide (p = k) then dict_set d "content" new else d)
           items conv.

(** Reading "exactly one message is modified" position by position: the call
    [run] returns a list of the same length whose messages agree with the
    input at every position but the first longest one. *)
Definition rewrites_one_position (run : Py loc) (s : state) (messages : loc) : Prop :=
  exists result s' conv conv' i,
    run s = (Ok result, s') /\
    conversation s messages = Some conv /\
    conversation s' result = Some conv' /\
    length conv' = length conv /\
    first_longest conv i /\
    forall j, j <> i -> conv' !! j = conv !! j.

(** The decimal numeral of [n] occurs in [text]. *)
Definition states_number (n : Z) (text : string) : bool :=
  occurs_in (PyStr.str_of_int n) text.

Section vocabulary.

Variable count_tokens : string -> string -> Z.

(** The total structured token count: the sum over the messages of the
    token count of the JSON serialization of each message. *)
Definition total_structured_tokens (model : string) (conv : list dict) : Z :=
  foldr (fun d n => count_tokens (json_dumps d) model + n) 0 conv.

(** Reading "the warning states the conversation's pre-truncation total":
    the call [run] prints exactly one text, and the numeral of the total
    structured token count of the input occurs in it. *)
Definition warns_with_conversation_total (run : Py loc) (s : state)
                                         (messages : loc) (model : string) : Prop :=
  exists result s' conv text,
    run s = (Ok result, s') /\
    conversation s messages = Some conv /\
    console s' = console s ++ [text] /\
    states_number (total_structured_tokens model conv) text = true.

End vocabulary.

(** A store with the empty conversation [messages = []] at location 1. *)
Definition empty_conversation_state : state :=
  mk_state {[ 1%positive := [] ]} ∅ [].

(** A store where the list at location 1 holds the same message object
    twice: [m = {"role": "user", "content": 400 times "a"}],
    [messages = [m, m]]. *)
Definition shared_message_state : state :=
  mk_state
    {[ 1%positive := [1%positive; 1%positive] ]}
    {[ 1%positive := [("role", "user"); ("content", repeat_char "a" 400)] ]}
    [].

(** Reading "each field on its own line, in the fixed order": the rendering
    splits into exactly five lines, and line by line these are some label
    (possibly empty) followed by the message, the raw output, the expected
    schema, the message history and the tool calls. *)
Definition five_lines (e : InvalidOutputError) : Prop :=
  exists l1 l2 l3 l4 l5,
    PyStr.lines (InvalidOutputError_str e) =
    [ l1 +:+ message e;
      l2 +:+ output e;
      l3 +:+ py_str (PDict (expected_schema e));
      l4 +:+ py_str (pyval_of_dicts (messages e));
      l5 +:+ py_str (pyval_of_tools (tools e)) ].

(** Reading "each on its own labeled line": as [five_lines], and every one
    of the five labels is there. *)
Definition five_labeled_lines (e : InvalidOutputError) : Prop :=
  exists l1 l2 l3 l4 l5,
    l1 <> "" /\ l2 <> "" /\ l3 <> "" /\ l4 <> "" /\ l5 <> "" /\
    PyStr.lines (InvalidOutputError_str e) =
    [ l1 +:+ message e;
      l2 +:+ output e;
      l3 +:+ py_str (PDict (expected_schema e));
      l4 +:+ py_str (pyval_of_dicts (messages e));
      l5 +:+ py_str (pyval_of_tools (tools e)) ].

(** An error whose raw output has two lines. *)
Definition two_line_output_error : InvalidOutputError :=
  mk_InvalidOutputError
    "Could not parse output"
    ("{'name': 'Ada'," +:+ PyStr.chr PyStr.LF +:+ " 'age': }")
    [("name", PStr "string"); ("age", PStr "integer")]
    [[("role", "user"); ("content", "Extract the name and the age")]]
    None.

(** ** Further vocabulary *)

(** A tokenizer that decodes a sequence piece by piece and gives back the
    text it encoded. *)
Definition decodes_piecewise (enc : Encoding) : Prop :=
  (forall a b, decode enc (a ++ b) = decode enc a +:+ decode enc b) /\
  (forall t, decode enc (encode enc t) = t).

(** How often the character [c] occurs in [s]. *)
Fixpoint count_char (c : ascii) (s : string) : nat :=
  match s with
  | EmptyString => 0
  | String d s' => (if Ascii.eqb d c then 1 else 0) + count_char c s'
  end.

(** Every character of [s] is a graphic ASCII character or a space. *)
Fixpoint printable_ascii (s : string) : bool :=
  match s with
  | EmptyString => true
  | String c s' =>
      (32 <=? N_of_ascii c)%N && (N_of_ascii c <? 127)%N && printable_ascii s'
  end.

(** How a call ends, whatever the type of its value. *)
Definition same_failure {A B} (ra : result A) (rb : result B) : Prop :=
  match ra, rb with
  | Raised c, Raised c' => c = c'
  | Stuck, Stuck => True
  | _, _ => False
  end.

Definition is_Ok {A} (r : result A) : bool :=
  match r with
  | Ok _ => true
  | _ => false
  end.

(** A store whose second message has no [content] entry:
    [messages = [{"role": "user", "content": 400 times "a"},
                 {"role": "tool"}]]. *)
Definition missing_content_state : state :=
  mk_state
    {[ 1%positive := [1%positive; 2%positive] ]}
    (<[1%positive := [("role", "user"); ("content", repeat_char "a" 400)]]>
       {[ 2%positive := [("role", "tool")] ]})
    [].

(** * Properties *)

(** ** Stepping through code in [Py] *)

Lemma bind_ok {A B} (m : Py A) (f : A -> Py B) s a s' :
  m s = (Ok a, s') -> (m ≫= f) s = f a s'.
Proof. intros H. unfold mbind, Py_bind. by rewrite H. Qed.

Lemma bind_raised {A B} (m : Py A) (f : A -> Py B) s c s' :
  m s = (Raised c, s') -> (m ≫= f) s = (Raised c, s').
Proof. intros H. unfold mbind, Py_bind. by rewrite H. Qed.

Lemma list_items_ok s l items :
  lists s !! l = Some items -> list_items l s = (Ok items, s).
Proof. intros H. unfold list_items. by rewrite H. Qed.

Lemma dict_at_ok s p d :
  dicts s !! p = Some d -> dict_at p s = (Ok d, s).
Proof. intros H. unfold dict_at. by rewrite H. Qed.

Lemma getitem_ok s p d k v :
  dicts s !! p = Some d -> dict_get d k = Some v -> getitem p k s = (Ok v, s).
Proof.
  intros Hp Hk. unfold getitem.
  rewrite (bind_ok _ _ _ _ _ (dict_at_ok _ _ _ Hp)). by rewrite Hk.
Qed.

Lemma bind_ok_inv {A B} (m : Py A) (f : A -> Py B) s b s' :
  (m ≫= f) s = (Ok b, s') -> exists a s0, m s = (Ok a, s0) /\ f a s0 = (Ok b, s').
Proof.
  unfold mbind, Py_bind. destruct (m s) as [[a | c |] s0]; [eauto | done | done].
Qed.

Lemma list_items_inv s l items s' :
  list_items l s = (Ok items, s') -> lists s !! l = Some items /\ s' = s.
Proof.
  unfold list_items. destruct (lists s !! l); [| done].
  by intros [= -> ->].
Qed.

Lemma reads_only_bind {A B} (m : Py A) (f : A -> Py B) :
  reads_only m -> (forall a, reads_only (f a)) -> reads_only (m ≫= f).
Proof.
  intros Hm Hf s r s'. unfold mbind, Py_bind.
  destruct (m s) as [[a | c |] s0] eqn:E; apply Hm in E as ->.
  - apply Hf.
  - by intros [= _ <-].
  - by intros [= _ <-].
Qed.

Lemma reads_only_ret {A} (a : A) : reads_only (mret a).
Proof. by intros s r s' [= _ <-]. Qed.

Lemma reads_only_raise {A} c : reads_only (@raise A c).
Proof. by intros s r s' [= _ <-]. Qed.

Lemma reads_only_dict_at p : reads_only (dict_at p).
Proof.
  intros s r s'. unfold dict_at. destruct (dicts s !! p); by intros [= _ <-].
Qed.

Lemma reads_only_getitem p k : reads_only (getitem p k).
Proof.
  apply reads_only_bind; [apply reads_only_dict_at |].
  intros d. destruct (dict_get d k); [apply reads_only_ret | apply reads_only_raise].
Qed.

Lemma getitem_reads p k s r s' : getitem p k s = (r, s') -> s' = s.
Proof. apply reads_only_getitem. Qed.

(** ** Dicts *)

Lemma dict_get_set_eq d k v : dict_get (dict_set d k v) k = Some v.
Proof.
  induction d as [|[k' v'] d IH]; simpl.
  - by rewrite String.eqb_refl.
  - destruct (String.eqb k' k) eqn:E; simpl; rewrite E; [done | apply IH].
Qed.

Lemma dict_get_set_ne d k k' v :
  k <> k' -> dict_get (dict_set d k v) k' = dict_get d k'.
Proof.
  intros Hne. induction d as [|[k0 v0] d IH]; simpl.
  - destruct (String.eqb k k') eqn:E; [|done].
    apply String.eqb_eq in E. congruence.
  - destruct (String.eqb k0 k) eqn:E; simpl.
    + apply String.eqb_eq in E. subst k0.
      destruct (String.eqb k k') eqn:E'; [|done].
      apply String.eqb_eq in E'. congruence.
    + by rewrite IH.
Qed.

(** Assigning to a key keeps the keys in their order. *)
Lemma dict_set_keys d k v :
  is_Some (dict_get d k) -> (dict_set d k v).*1 = d.*1.
Proof.
  induction d as [|[k' v'] d IH]; cbn [dict_get dict_set].
  - intros [? ?]. done.
  - destruct (String.eqb k' k) eqn:E; [done |].
    intros H. rewrite !fmap_cons. by rewrite IH.
Qed.

(** ** Slices *)

Lemma slice_to_firstn {A} (l : list A) (i : Z) :
  0 <= i <= len l -> slice_to l i = firstn (Z.to_nat i) l.
Proof.
  intros [H0 H1]. unfold slice_to, slice_index.
  destruct (i <? 0) eqn:E; [lia |]. by rewrite Z.min_l.
Qed.

Lemma slice_from_skipn {A} (l : list A) (i : Z) :
  0 <= i <= len l -> slice_from l i = skipn (Z.to_nat i) l.
Proof.
  intros [H0 H1]. unfold slice_from, slice_index.
  destruct (i <? 0) eqn:E; [lia |]. by rewrite Z.min_l.
Qed.

(** The numbers of the cut: [tokens_to_remove] is the smaller of the encoded
    length and the excess, it is never negative once the excess is positive,
    and both slice bounds fall inside the encoded content. *)
Lemma cut_bounds (toks : list Z) (excess : Z) :
  0 <= excess ->
  let r := tokens_to_remove toks excess in
  0 <= r <= len toks /\
  0 <= mid_point toks - r / 2 <= len toks /\
  0 <= mid_point toks + r / 2 <= len toks.
Proof.
  intros Hex r. unfold r, tokens_to_remove, mid_point.
  assert (0 <= len toks) by (unfold len; lia).
  set (n := len toks) in *. set (m := Z.min n excess).
  assert (0 <= m <= n) by (unfold m; lia).
  assert (m / 2 <= n / 2) by (apply Z.div_le_mono; lia).
  assert (0 <= m / 2) by (apply Z.div_pos; lia).
  assert (2 * (n / 2) <= n) by (apply Z.mul_div_le; lia).
  lia.
Qed.

(** The encoded content splits into what is kept before the cut, what is
    taken out, and what is kept after it. *)
Lemma cut_split (toks marker : list Z) (excess : Z) :
  0 <= excess ->
  let r := tokens_to_remove toks excess in
  let kept_before := firstn (Z.to_nat (mid_point toks - r / 2)) toks in
  let kept_after := skipn (Z.to_nat (mid_point toks + r / 2)) toks in
  exists removed,
    toks = kept_before ++ removed ++ kept_after /\
    truncated_encoded toks r marker = kept_before ++ marker ++ kept_after /\
    len removed = 2 * (r / 2) /\
    len removed = r - r mod 2 /\
    len (truncated_encoded toks r marker) = len toks - 2 * (r / 2) + len marker.
Proof.
  intros Hex r kept_before kept_after.
  destruct (cut_bounds toks excess Hex) as (Hr & Hlo & Hhi).
  fold r in Hr, Hlo, Hhi.
  assert (Hhalf : 0 <= r / 2) by (apply Z.div_pos; lia).
  set (a := Z.to_nat (mid_point toks - r / 2)) in *.
  set (n := Z.to_nat (2 * (r / 2))).
  assert (Hsum : Z.to_nat (mid_point toks + r / 2) = (a + n)%nat) by (unfold a, n; lia).
  assert (Hcut : truncated_encoded toks r marker = kept_before ++ marker ++ kept_after).
  { unfold truncated_encoded. by rewrite slice_to_firstn, slice_from_skipn. }
  assert (Hlen_before : length kept_before = a).
  { unfold kept_before. rewrite length_take. unfold len in *. unfold a. lia. }
  assert (Hlen_after : length kept_after = (length toks - (a + n))%nat).
  { unfold kept_after. rewrite Hsum. apply length_drop. }
  assert (Hn : (a + n <= length toks)%nat) by (unfold len in *; lia).
  exists (firstn n (skipn a toks)). split_and!.
  - unfold kept_before, kept_after. rewrite Hsum.
    rewrite <- (take_drop a toks) at 1. f_equal.
    rewrite <- (take_drop n (drop a toks)) at 1. f_equal.
    by rewrite drop_drop.
  - done.
  - unfold len. rewrite length_take, length_drop. unfold n. lia.
  - unfold len. rewrite length_take, length_drop.
    pose proof (Z.div_mod r 2). unfold n. lia.
  - rewrite Hcut. unfold len in *. rewrite !length_app, Hlen_before, Hlen_after.
    unfold n in *. lia.
Qed.

(** ** truncate_messages *)

Section truncate_facts.

Variable model_cost : gmap string (gmap string Z).
Variable count_tokens : string -> string -> Z.
Variable encoding_for_model : string -> option Encoding.
Variable gpt_4o : Encoding.

Abbreviation truncate :=
  (truncate_messages model_cost count_tokens encoding_for_model gpt_4o).
Abbreviation budget := (model_input_context_length model_cost).
Abbreviation total := (total_structured_tokens count_tokens).
Abbreviation encoder := (resolve_encoder encoding_for_model gpt_4o).

(** The summing loop computes the total structured token count and leaves
    the store alone. *)
Lemma sum_tokens_total model s items conv :
  mapM (fun p => dicts s !! p) items = Some conv ->
  forall acc,
    sum_tokens count_tokens model acc items s = (Ok (acc + total model conv), s).
Proof.
  intros H. apply mapM_Some in H.
  induction H as [|p d items conv Hp _ IH]; intros acc; simpl.
  - by rewrite Z.add_0_r.
  - rewrite (bind_ok _ _ _ _ _ (dict_at_ok _ _ _ Hp)).
    rewrite IH. do 2 f_equal. lia.
Qed.

Lemma sum_tokens_reads model items acc s r s' :
  sum_tokens count_tokens model acc items s = (r, s') -> s' = s.
Proof.
  revert acc s r s'. induction items as [|p items IH]; intros acc; simpl.
  - apply reads_only_ret.
  - apply reads_only_bind; [apply reads_only_dict_at |].
    intros d s r s'. apply IH.
Qed.

Lemma max_loop_reads rest best best_key s r s' :
  max_loop best best_key rest s = (r, s') -> s' = s.
Proof.
  revert best best_key s r s'.
  induction rest as [|x rest IH]; intros best bk; simpl.
  - apply reads_only_ret.
  - apply reads_only_bind; [apply reads_only_getitem |].
    intros c s r s'. destruct (bk <? PyStr.len c); apply IH.
Qed.

Lemma max_by_content_len_reads items s r s' :
  max_by_content_len items s = (r, s') -> s' = s.
Proof.
  destruct items as [|x rest]; simpl.
  - apply reads_only_raise.
  - apply reads_only_bind; [apply reads_only_getitem |].
    intros c s0 r0 s0'. apply max_loop_reads.
Qed.

(** The [max] loop: it ends on the running best when no later key is
    strictly larger, and otherwise on the first later item whose key beats
    the running best and all keys. *)
Lemma max_loop_first_max s rest conv :
  Forall2 (fun p d => dicts s !! p = Some d) rest conv ->
  Forall has_content conv ->
  forall best best_key,
  exists k, max_loop best best_key rest s = (Ok k, s) /\
    ((k = best /\ forall j m, (conv !! j ≫= content_len) = Some m -> m <= best_key)
     \/ exists i n, rest !! i = Some k /\ (conv !! i ≫= content_len) = Some n /\
          best_key < n /\
          (forall j m, (conv !! j ≫= content_len) = Some m -> m <= n) /\
          (forall j m, (j < i)%nat -> (conv !! j ≫= content_len) = Some m -> m < n)).
Proof.
  induction 1 as [|p d rest conv Hp _ IH]; intros Hc best bk.
  - exists best. split; [done |]. left. split; [done |].
    intros j m. by rewrite lookup_nil.
  - apply Forall_cons in Hc as [[c Hd] Hc]. cbn [max_loop].
    rewrite (bind_ok _ _ _ _ _ (getitem_ok _ _ _ _ _ Hp Hd)).
    assert (Hk : content_len d = Some (PyStr.len c))
      by (unfold content_len; by rewrite Hd).
    destruct (bk <? PyStr.len c) eqn:E.
    + apply Z.ltb_lt in E.
      destruct (IH Hc p (PyStr.len c)) as (k & Hrun & Hk').
      exists k. split; [done |]. right.
      destruct Hk' as [[-> Hle] | (i & n & Hi & Hn & Hlt & Hle & Hearly)].
      * exists 0%nat, (PyStr.len c). split_and!; [done | done | done | | lia].
        intros [|j] m; simpl; [rewrite Hk; intros [= <-]; lia | apply Hle].
      * exists (S i), n. split_and!; [done | done | lia | |].
        -- intros [|j] m; simpl; [rewrite Hk; intros [= <-]; lia | apply Hle].
        -- intros [|j] m Hj; simpl; [rewrite Hk; intros [= <-]; lia |].
           apply Hearly. lia.
    + apply Z.ltb_ge in E.
      destruct (IH Hc best bk) as (k & Hrun & Hk').
      exists k. split; [done |].
      destruct Hk' as [[-> Hle] | (i & n & Hi & Hn & Hlt & Hle & Hearly)].
      * left. split; [done |].
        intros [|j] m; simpl; [rewrite Hk; intros [= <-]; lia | apply Hle].
      * right. exists (S i), n. split_and!; [done | done | lia | |].
        -- intros [|j] m; simpl; [rewrite Hk; intros [= <-]; lia | apply Hle].
        -- intros [|j] m Hj; simpl; [rewrite Hk; intros [= <-]; lia |].
           apply Hearly. lia.
Qed.

(** [max] over a non-empty conversation returns the message at the first
    position of a longest content. *)
Lemma max_by_content_len_first_longest s items conv :
  Forall2 (fun p d => dicts s !! p = Some d) items conv ->
  Forall has_content conv ->
  items <> [] ->
  exists i k, max_by_content_len items s = (Ok k, s) /\
    items !! i = Some k /\ first_longest conv i.
Proof.
  intros H Hc Hne. destruct H as [|p d rest conv Hp Hrest]; [done |].
  apply Forall_cons in Hc as [[c Hd] Hc]. cbn [max_by_content_len].
  rewrite (bind_ok _ _ _ _ _ (getitem_ok _ _ _ _ _ Hp Hd)).
  assert (Hk : content_len d = Some (PyStr.len c))
    by (unfold content_len; by rewrite Hd).
  destruct (max_loop_first_max s rest conv Hrest Hc p (PyStr.len c))
    as (k & Hrun & [[-> Hle] | (i & n & Hi & Hn & Hlt & Hle & Hearly)]).
  - exists 0%nat, p. split_and!; [done | done |].
    exists (PyStr.len c). split_and!; [done | | lia].
    intros [|j] m; simpl; [rewrite Hk; intros [= <-]; lia | apply Hle].
  - exists (S i), k. split_and!; [done | done |].
    exists n. split_and!; [done | |].
    + intros [|j] m; simpl; [rewrite Hk; intros [= <-]; lia | apply Hle].
    + intros [|j] m Hj; simpl; [rewrite Hk; intros [= <-]; lia |].
      apply Hearly. lia.
Qed.

(** The first position of a longest content is unique. *)
Lemma first_longest_unique conv i j :
  first_longest conv i -> first_longest conv j -> i = j.
Proof.
  intros (n & Hn & Hle & Hlt) (m & Hm & Hle' & Hlt').
  destruct (Nat.lt_trichotomy i j) as [H | [H | H]]; [| done |].
  - specialize (Hlt' _ _ H Hn). specialize (Hle _ _ Hm). lia.
  - specialize (Hlt _ _ H Hm). specialize (Hle' _ _ Hn). lia.
Qed.

(** The early return: within the budget less 100 the call hands back the
    list object it was given and touches nothing. *)
Lemma truncate_messages_within s messages model from_agent conv :
  conversation s messages = Some conv ->
  total model conv <= budget model - 100 ->
  truncate messages model from_agent s = (Ok messages, s).
Proof.
  unfold conversation. intros Hconv Hfit.
  destruct (lists s !! messages) as [items|] eqn:Hl; [simpl in Hconv | done].
  unfold truncate_messages.
  rewrite (bind_ok _ _ _ _ _ (list_items_ok _ _ _ Hl)).
  rewrite (bind_ok _ _ _ _ _ (sum_tokens_total model s items conv Hconv 0)).
  rewrite Z.add_0_l. apply Z.leb_le in Hfit. by rewrite Hfit.
Qed.

(** The truncation path, step by step: the list is copied to a fresh list
    object, the first longest message is found, its content is cut around
    the middle, one warning is printed and the content is stored back into
    the same dict object. *)
Lemma truncate_messages_cut s messages model from_agent items conv :
  lists s !! messages = Some items ->
  mapM (fun p => dicts s !! p) items = Some conv ->
  Forall has_content conv ->
  conv <> [] ->
  budget model - 100 < total model conv ->
  exists i k d content,
    first_longest conv i /\ items !! i = Some k /\
    dicts s !! k = Some d /\ conv !! i = Some d /\
    dict_get d "content" = Some content /\
    let toks := encode (encoder model) content in
    let r := tokens_to_remove toks (excess_tokens (total model conv) (budget model)) in
    let cut := truncated_encoded toks r (encode (encoder model) (marker_text r)) in
    truncate messages model from_agent s =
      (Ok (fresh (dom (lists s))),
       mk_state (<[fresh (dom (lists s)) := items]> (lists s))
                (<[k := dict_set d "content" (decode (encoder model) cut)]> (dicts s))
                (console s ++ [warning_text from_agent r (len toks)])).
Proof.
  intros Hl Hconv Hc Hne Hover.
  pose proof Hconv as HF. apply mapM_Some in HF.
  assert (Hitems : items <> []) by (intros ->; inversion HF; congruence).
  set (s1 := mk_state (<[fresh (dom (lists s)) := items]> (lists s)) (dicts s) (console s)).
  destruct (max_by_content_len_first_longest s1 items conv HF Hc Hitems)
    as (i & k & Hmax & Hi & Hfirst).
  destruct (Forall2_lookup_l _ _ _ _ _ HF Hi) as (d & Hd & Hk).
  pose proof Hfirst as (n & Hn & _). rewrite Hd in Hn. simpl in Hn.
  unfold content_len in Hn.
  destruct (dict_get d "content") as [content|] eqn:Hcontent; [| done].
  exists i, k, d, content. split_and!; try done.
  intros toks r cut. unfold truncate_messages.
  rewrite (bind_ok _ _ _ _ _ (list_items_ok _ _ _ Hl)).
  rewrite (bind_ok _ _ _ _ _ (sum_tokens_total model s items conv Hconv 0)).
  rewrite Z.add_0_l.
  apply Z.leb_gt in Hover. rewrite Hover.
  assert (Hcopy : list_copy messages s = (Ok (fresh (dom (lists s))), s1))
    by (unfold list_copy; by rewrite Hl).
  rewrite (bind_ok _ _ _ _ _ Hcopy).
  assert (Hl1 : lists s1 !! fresh (dom (lists s)) = Some items)
    by (simpl; apply lookup_insert_eq).
  rewrite (bind_ok _ _ _ _ _ (list_items_ok _ _ _ Hl1)).
  rewrite (bind_ok _ _ _ _ _ Hmax).
  assert (Hk1 : dicts s1 !! k = Some d) by done.
  rewrite (bind_ok _ _ _ _ _ (getitem_ok _ _ _ _ _ Hk1 Hcontent)).
  cbv zeta. unfold mbind, Py_bind, rprint, setitem, mret, Py_ret. simpl.
  by rewrite Hk.
Qed.

(** On an empty list [max] raises [ValueError], and so does the call when
    an empty conversation is over the budget less 100. *)
Lemma truncate_messages_empty s messages model from_agent :
  lists s !! messages = Some [] ->
  budget model < 100 ->
  exists s', truncate messages model from_agent s = (Raised ValueError, s').
Proof.
  intros Hl Hb. unfold truncate_messages.
  rewrite (bind_ok _ _ _ _ _ (list_items_ok _ _ _ Hl)). simpl.
  assert (E : (0 <=? budget model - 100) = false) by (apply Z.leb_gt; lia).
  unfold mbind at 1, Py_bind, mret, Py_ret. rewrite E.
  unfold mbind, Py_bind, list_copy, list_items. rewrite Hl. simpl.
  rewrite lookup_insert_eq. simpl. eauto.
Qed.

(** After the store into message object [k], the list items resolve to
    the rewritten conversation. *)
Lemma rewrite_content_resolves (ds : gmap loc dict) items conv k d new :
  Forall2 (fun p d => ds !! p = Some d) items conv ->
  ds !! k = Some d ->
  Forall2 (fun p d' => <[k := dict_set d "content" new]> ds !! p = Some d')
          items (rewrite_content items conv k new).
Proof.
  intros HF Hk. unfold rewrite_content.
  induction HF as [|p d0 items conv Hp _ IH]; simpl; constructor; [| done].
  destruct (decide (p = k)) as [-> | Hne].
  - rewrite lookup_insert_eq. congruence.
  - by rewrite lookup_insert_ne.
Qed.

Lemma rewrite_content_length items conv k new :
  length items = length conv ->
  length (rewrite_content items conv k new) = length conv.
Proof. intros H. unfold rewrite_content. rewrite length_zip_with. lia. Qed.

Lemma rewrite_content_other items conv k new j p :
  length items = length conv ->
  items !! j = Some p -> p <> k ->
  rewrite_content items conv k new !! j = conv !! j.
Proof.
  intros Hlen Hj Hne. unfold rewrite_content.
  rewrite lookup_zip_with, Hj. simpl.
  destruct (conv !! j) as [d0|]; simpl; [| done].
  by destruct (decide (p = k)).
Qed.

Lemma rewrite_content_at items conv k new j d :
  items !! j = Some k -> conv !! j = Some d ->
  rewrite_content items conv k new !! j = Some (dict_set d "content" new).
Proof.
  intros Hj Hd. unfold rewrite_content.
  rewrite lookup_zip_with, Hj, Hd. simpl.
  by destruct (decide (k = k)).
Qed.

(** C1: a conversation whose total structured token count is at most the
    resolved budget minus 100 is returned unchanged: the call hands back
    the very list it was given, no message is touched and nothing is
    printed. *)
Theorem C1_within_budget_returns_input s messages model from_agent conv :
  conversation s messages = Some conv ->
  total model conv <= budget model - 100 ->
  truncate messages model from_agent s = (Ok messages, s).
Proof. apply truncate_messages_within. Qed.

(** C2, as amended: for a non-empty conversation over the budget less 100
    the call returns, and it rewrites the content of exactly one message
    object, the one at the first position of a longest content: its new
    content is the decoded splice [truncated_content] of its old content.
    Only the [content] entry of that object changes, every other message
    object is as before, and the returned list holds the same message
    objects in the same order; when the list holds distinct objects, every
    position but that one is identical to the input. *)
Theorem C2_rewrites_first_longest_only s messages model from_agent conv :
  conversation s messages = Some conv ->
  Forall has_content conv ->
  conv <> [] ->
  budget model - 100 < total model conv ->
  exists result s' items i k d content conv',
    let new := truncated_content (encoder model) content
                 (excess_tokens (total model conv) (budget model)) in
    truncate messages model from_agent s = (Ok result, s') /\
    lists s !! messages = Some items /\
    first_longest conv i /\ items !! i = Some k /\ conv !! i = Some d /\
    dict_get d "content" = Some content /\
    lists s' !! result = Some items /\
    dicts s' = <[k := dict_set d "content" new]> (dicts s) /\
    (dicts s' !! k ≫= fun d' => dict_get d' "content") = Some new /\
    (forall p, p <> k -> dicts s' !! p = dicts s !! p) /\
    (dict_set d "content" new).*1 = d.*1 /\
    (forall key, key <> "content" ->
       dict_get (dict_set d "content" new) key = dict_get d key) /\
    conversation s' result = Some conv' /\
    length conv' = length conv /\
    conv' !! i = Some (dict_set d "content" new) /\
    (forall j p, items !! j = Some p -> p <> k -> conv' !! j = conv !! j) /\
    (NoDup items -> forall j, j <> i -> conv' !! j = conv !! j).
Proof.
  unfold conversation. intros Hconv Hc Hne Hover.
  destruct (lists s !! messages) as [items|] eqn:Hl; [simpl in Hconv | done].
  destruct (truncate_messages_cut s messages model from_agent items conv
              Hl Hconv Hc Hne Hover)
    as (i & k & d & content & Hfirst & Hi & Hk & Hd & Hcontent & Hrun).
  cbv zeta in Hrun.
  apply mapM_Some in Hconv. pose proof (Forall2_length _ _ _ Hconv) as Hlen.
  set (new := truncated_content (encoder model) content
                (excess_tokens (total model conv) (budget model))).
  exists (fresh (dom (lists s))),
    (mk_state (<[fresh (dom (lists s)) := items]> (lists s))
              (<[k := dict_set d "content" new]> (dicts s))
              (console s ++ [warning_text from_agent
                 (tokens_to_remove (encode (encoder model) content)
                    (excess_tokens (total model conv) (budget model)))
                 (len (encode (encoder model) content))])),
    items, i, k, d, content, (rewrite_content items conv k new).
  cbv zeta. fold new. split; [exact Hrun |]. simpl.
  split_and!; try done.
  - apply lookup_insert_eq.
  - rewrite lookup_insert_eq. simpl. apply dict_get_set_eq.
  - intros p Hp. by rewrite lookup_insert_ne.
  - apply dict_set_keys. by rewrite Hcontent.
  - intros key Hkey. by apply dict_get_set_ne.
  - rewrite lookup_insert_eq. simpl. apply mapM_Some.
    by apply rewrite_content_resolves.
  - by apply rewrite_content_length.
  - by apply rewrite_content_at.
  - intros j p Hj Hp. by apply (rewrite_content_other _ _ _ _ _ p).
  - intros Hnd j Hj.
    destruct (items !! j) as [p|] eqn:Hp.
    + apply (rewrite_content_other _ _ _ _ _ p); [done | done |].
      intros ->. apply Hj. by apply (NoDup_lookup items j i k).
    + unfold rewrite_content. rewrite lookup_zip_with, Hp. simpl.
      apply lookup_ge_None in Hp. symmetry. apply lookup_ge_None. lia.
Qed.

(** The two wordings of the warning differ. *)
Lemma warning_text_distinguishes r n :
  warning_text true r n <> warning_text false r n.
Proof. unfold warning_text, warning_type. simpl. discriminate. Qed.

(** C3, as amended: whenever the call truncates it prints exactly one
    warning.  Its text starts with "User" for [from_agent = False] and with
    "Agent" otherwise, and it states two numbers.  The first is
    [tokens_to_remove], the smaller of the encoded length of the longest
    content and [total_tokens - budget + 200]; the tokens really taken out
    of the content number [tokens_to_remove - tokens_to_remove mod 2], so
    the warning states the number of tokens cut when it is even and one more
    when it is odd.  The second is the number of tokens of the encoded
    content of the longest message (the value [total_tokens] has been given
    just before the warning), not the total of the conversation. *)
Theorem C3_one_warning_with_encoded_length s messages model from_agent conv :
  conversation s messages = Some conv ->
  Forall has_content conv ->
  conv <> [] ->
  budget model - 100 < total model conv ->
  exists result s' items i k d content taken_out,
    let toks := encode (encoder model) content in
    let r := tokens_to_remove toks (excess_tokens (total model conv) (budget model)) in
    let kept_before := firstn (Z.to_nat (mid_point toks - r / 2)) toks in
    let kept_after := skipn (Z.to_nat (mid_point toks + r / 2)) toks in
    truncate messages model from_agent s = (Ok result, s') /\
    lists s !! messages = Some items /\
    first_longest conv i /\ items !! i = Some k /\ conv !! i = Some d /\
    dict_get d "content" = Some content /\
    console s' = console s ++ [warning_text from_agent r (len toks)] /\
    warning_text from_agent r (len toks) =
      "[yellow]" +:+ (if from_agent then "Agent" else "User")
      +:+ " Warning:[/yellow] Cutting " +:+ PyStr.str_of_int r
      +:+ " tokens from a prompt with " +:+ PyStr.str_of_int (len toks)
      +:+ " tokens..." /\
    warning_text true r (len toks) <> warning_text false r (len toks) /\
    r = Z.min (len toks) (total model conv - budget model + 200) /\
    toks = kept_before ++ taken_out ++ kept_after /\
    (dicts s' !! k ≫= fun d' => dict_get d' "content")
      = Some (decode (encoder model)
                (kept_before ++ encode (encoder model) (marker_text r) ++ kept_after)) /\
    len taken_out = r - r mod 2.
Proof.
  unfold conversation. intros Hconv Hc Hne Hover.
  destruct (lists s !! messages) as [items|] eqn:Hl; [simpl in Hconv | done].
  destruct (truncate_messages_cut s messages model from_agent items conv
              Hl Hconv Hc Hne Hover)
    as (i & k & d & content & Hfirst & Hi & Hk & Hd & Hcontent & Hrun).
  cbv zeta in Hrun.
  assert (Hex : 0 <= excess_tokens (total model conv) (budget model))
    by (unfold excess_tokens; lia).
  destruct (cut_split (encode (encoder model) content)
              (encode (encoder model)
                 (marker_text (tokens_to_remove (encode (encoder model) content)
                    (excess_tokens (total model conv) (budget model)))))
              _ Hex)
    as (taken_out & Hsplit & Hcut & _ & Hlen & _).
  eexists _, _, items, i, k, d, content, taken_out. cbv zeta.
  split; [exact Hrun |]. simpl.
  do 5 (split; [done |]).
  split; [done |].
  split; [by destruct from_agent |].
  split; [apply warning_text_distinguishes |].
  split; [done |].
  split; [exact Hsplit |].
  split; [| exact Hlen].
  rewrite lookup_insert_eq. simpl. rewrite dict_get_set_eq. by rewrite Hcut.
Qed.

(** C4: on the truncation path [tokens_to_remove] is the smaller of the
    encoded length of the longest content and [total_tokens - budget + 200],
    so it never exceeds that encoded length; the new content decodes the
    first [mid_point - tokens_to_remove // 2] tokens, the marker, and the
    tokens from [mid_point + tokens_to_remove // 2] on, where both
    divisions round down. *)
Theorem C4_cut_around_the_middle s messages model from_agent conv :
  conversation s messages = Some conv ->
  Forall has_content conv ->
  conv <> [] ->
  budget model - 100 < total model conv ->
  exists result s' items i k d content,
    truncate messages model from_agent s = (Ok result, s') /\
    lists s !! messages = Some items /\
    first_longest conv i /\ items !! i = Some k /\ conv !! i = Some d /\
    dict_get d "content" = Some content /\
    let toks := encode (encoder model) content in
    let r := tokens_to_remove toks (excess_tokens (total model conv) (budget model)) in
    let mid := mid_point toks in
    let marker := encode (encoder model) (marker_text r) in
    let kept_before := firstn (Z.to_nat (mid - r / 2)) toks in
    let kept_after := skipn (Z.to_nat (mid + r / 2)) toks in
    r = Z.min (len toks) (total model conv - budget model + 200) /\
    0 <= r <= len toks /\
    (2 * mid <= len toks < 2 * mid + 2) /\
    (2 * (r / 2) <= r < 2 * (r / 2) + 2) /\
    truncated_encoded toks r marker = kept_before ++ marker ++ kept_after /\
    len kept_before = mid - r / 2 /\
    len kept_after = len toks - (mid + r / 2) /\
    (dicts s' !! k ≫= fun d' => dict_get d' "content")
      = Some (decode (encoder model) (kept_before ++ marker ++ kept_after)).
Proof.
  unfold conversation. intros Hconv Hc Hne Hover.
  destruct (lists s !! messages) as [items|] eqn:Hl; [simpl in Hconv | done].
  destruct (truncate_messages_cut s messages model from_agent items conv
              Hl Hconv Hc Hne Hover)
    as (i & k & d & content & Hfirst & Hi & Hk & Hd & Hcontent & Hrun).
  cbv zeta in Hrun.
  eexists _, _, items, i, k, d, content. split; [exact Hrun |].
  do 5 (split; [done |]).
  set (toks := encode (encoder model) content).
  set (r := tokens_to_remove toks _).
  set (mid := mid_point toks).
  set (marker := encode (encoder model) (marker_text r)).
  set (kept_before := take _ toks).
  set (kept_after := drop _ toks).
  assert (Hex : 0 <= excess_tokens (total model conv) (budget model))
    by (unfold excess_tokens; lia).
  destruct (cut_bounds toks _ Hex) as (Hr & Hlo & Hhi).
  fold r in Hr, Hlo, Hhi. fold mid in Hlo, Hhi.
  assert (Hcut : truncated_encoded toks r marker = kept_before ++ marker ++ kept_after).
  { unfold truncated_encoded. fold mid.
    by rewrite slice_to_firstn, slice_from_skipn. }
  split_and!.
  - done.
  - lia.
  - lia.
  - unfold mid, mid_point. pose proof (Z.mul_div_le (len toks) 2).
    pose proof (Z.mul_succ_div_gt (len toks) 2). lia.
  - unfold mid, mid_point. pose proof (Z.mul_div_le (len toks) 2).
    pose proof (Z.mul_succ_div_gt (len toks) 2). lia.
  - pose proof (Z.mul_div_le r 2). lia.
  - pose proof (Z.mul_succ_div_gt r 2). lia.
  - done.
  - unfold kept_before, len in *. rewrite length_take. lia.
  - unfold kept_after, len in *. rewrite length_drop. lia.
  - simpl. rewrite lookup_insert_eq. simpl.
    rewrite dict_get_set_eq. by rewrite <- Hcut.
Qed.

(** C9: when the result of one pass is within the budget less 100, a
    second pass returns that result unchanged. *)
Theorem C9_second_pass_is_identity s messages model from_agent from_agent'
                                   result s1 conv1 :
  truncate messages model from_agent s = (Ok result, s1) ->
  conversation s1 result = Some conv1 ->
  total model conv1 <= budget model - 100 ->
  truncate result model from_agent' s1 = (Ok result, s1).
Proof. intros _. apply truncate_messages_within. Qed.

(** On either path the returned list holds the message objects of the
    input list. *)
Lemma truncate_messages_same_items s messages model from_agent result s' :
  truncate messages model from_agent s = (Ok result, s') ->
  lists s' !! result = lists s !! messages.
Proof.
  unfold truncate_messages. intros H.
  apply bind_ok_inv in H as (items & s0 & Hitems & H).
  apply list_items_inv in Hitems as [Hl ->].
  apply bind_ok_inv in H as (t & s0 & Hsum & H).
  apply sum_tokens_reads in Hsum as ->.
  destruct (t <=? budget model - 100).
  { by injection H as <- <-. }
  apply bind_ok_inv in H as (l' & s1 & Hcopy & H).
  unfold list_copy in Hcopy. rewrite Hl in Hcopy. injection Hcopy as <- <-.
  apply bind_ok_inv in H as (copied & s1 & Hcopied & H).
  apply list_items_inv in Hcopied as [_ ->].
  apply bind_ok_inv in H as (k & s1 & Hmax & H).
  apply max_by_content_len_reads in Hmax as ->.
  apply bind_ok_inv in H as (c & s1 & Hget & H).
  apply getitem_reads in Hget as ->.
  cbv zeta in H.
  apply bind_ok_inv in H as ([] & s1 & Hprint & H).
  injection Hprint as <-.
  apply bind_ok_inv in H as ([] & s1 & Hset & H).
  unfold setitem in Hset. simpl in Hset.
  destruct (dicts s !! k); [| done].
  injection Hset as <-. injection H as <- <-. simpl.
  by rewrite lookup_insert_eq.
Qed.

(** C10: the call copies the outer list only.  On the truncation path the
    result is a new list object whose items are the very message objects
    of the input list; the longest message is updated in place with the
    decoded splice [truncated_content] of its old content, so the input
    list, read after the call, shows that truncated content at the position
    of that message, exactly as the returned list does. *)
Theorem C10_messages_are_shared s messages model from_agent conv :
  conversation s messages = Some conv ->
  Forall has_content conv ->
  conv <> [] ->
  budget model - 100 < total model conv ->
  (forall result s',
     truncate messages model from_agent s = (Ok result, s') ->
     lists s' !! result = lists s !! messages) /\
  exists result s' items i k d content,
    let new := truncated_content (encoder model) content
                 (excess_tokens (total model conv) (budget model)) in
    truncate messages model from_agent s = (Ok result, s') /\
    lists s !! messages = Some items /\
    lists s !! result = None /\ result <> messages /\
    lists s' !! result = Some items /\
    lists s' !! messages = Some items /\
    first_longest conv i /\ items !! i = Some k /\ conv !! i = Some d /\
    dict_get d "content" = Some content /\
    dicts s' !! k = Some (dict_set d "content" new) /\
    dict_get (dict_set d "content" new) "content" = Some new /\
    conversation s' messages = Some (rewrite_content items conv k new) /\
    conversation s' result = conversation s' messages /\
    rewrite_content items conv k new !! i = Some (dict_set d "content" new) /\
    (conversation s' messages ≫= fun conv' =>
       conv' !! i ≫= fun d' => dict_get d' "content") = Some new.
Proof.
  intros Hconv Hc Hne Hover.
  split; [apply truncate_messages_same_items |].
  unfold conversation in *.
  destruct (lists s !! messages) as [items|] eqn:Hl; [simpl in Hconv | done].
  destruct (truncate_messages_cut s messages model from_agent items conv
              Hl Hconv Hc Hne Hover)
    as (i & k & d & content & Hfirst & Hi & Hk & Hd & Hcontent & Hrun).
  cbv zeta in Hrun.
  apply mapM_Some in Hconv.
  assert (Hfresh : lists s !! fresh (dom (lists s)) = None)
    by (apply not_elem_of_dom, is_fresh).
  assert (Hne' : fresh (dom (lists s)) <> messages) by congruence.
  set (new := truncated_content (encoder model) content
                (excess_tokens (total model conv) (budget model))).
  assert (Hres : mapM (fun p => <[k := dict_set d "content" new]> (dicts s) !! p) items
                 = Some (rewrite_content items conv k new))
    by (apply mapM_Some; by apply rewrite_content_resolves).
  exists (fresh (dom (lists s))),
    (mk_state (<[fresh (dom (lists s)) := items]> (lists s))
              (<[k := dict_set d "content" new]> (dicts s))
              (console s ++ [warning_text from_agent
                 (tokens_to_remove (encode (encoder model) content)
                    (excess_tokens (total model conv) (budget model)))
                 (len (encode (encoder model) content))])),
    items, i, k, d, content.
  cbv zeta. fold new. split; [exact Hrun |]. simpl.
  rewrite lookup_insert_eq, lookup_insert_ne, Hl by done. simpl.
  rewrite Hres. simpl.
  rewrite (rewrite_content_at _ _ _ _ _ _ Hi Hd). simpl.
  rewrite dict_get_set_eq.
  split_and!; try done.
  apply lookup_insert_eq.
Qed.

End truncate_facts.

(** ** Runs of truncate_messages in the concrete setting *)

Example demo_total :
  total_structured_tokens demo_count_tokens "openai/tiny" demo_conversation = 473.
Proof. vm_compute. reflexivity. Qed.

Example demo_run :
  demo_truncate 1%positive "openai/tiny" false demo_state
  = (Ok 2%positive, demo_state_after).
Proof. vm_compute. reflexivity. Qed.

Example demo_conversation_ok :
  conversation demo_state 1%positive = Some demo_conversation.
Proof. vm_compute. reflexivity. Qed.

(** Replace the result of the run on [demo_state] by its value. *)
Ltac fold_demo_run H :=
  let E := fresh in
  pose proof demo_run as E; unfold demo_truncate in E;
  rewrite E in H; clear E; injection H as <- <-.

Lemma demo_has_content : Forall has_content demo_conversation.
Proof. repeat constructor; eexists; reflexivity. Defined.

Lemma C1_witness :
  demo_truncate 1%positive "gpt-4" true demo_state = (Ok 1%positive, demo_state).
Proof.
  apply (C1_within_budget_returns_input
           demo_model_cost demo_count_tokens demo_encoding_for_model char_encoding
           demo_state 1%positive "gpt-4" true demo_conversation).
  - vm_compute. reflexivity.
  - vm_compute. discriminate.
Defined.

(** The claim read position by position fails in two ways: an empty
    conversation over a budget below 100 makes [max] raise [ValueError], and
    a message object that occurs twice in the list changes at both
    positions. *)
Lemma C2_counterexample :
  ~ rewrites_one_position (demo_truncate 1%positive "bedrock/sd3" false)
                          empty_conversation_state 1%positive
  /\ ~ rewrites_one_position (demo_truncate 1%positive "tiny" false)
                             shared_message_state 1%positive.
Proof.
  split.
  - intros (result & s' & conv & conv' & i & Hrun & _).
    vm_compute in Hrun. discriminate.
  - intros (result & s' & conv & conv' & i & Hrun & Hconv & Hconv' & _ & Hfirst & Hsame).
    vm_compute in Hrun. injection Hrun as <- <-.
    vm_compute in Hconv. injection Hconv as <-.
    vm_compute in Hconv'. injection Hconv' as <-.
    assert (i = 0%nat) as ->.
    { destruct Hfirst as (n & Hn & _ & Hlt).
      destruct i as [|[|i]]; [done | | done].
      vm_compute in Hn. injection Hn as <-.
      specialize (Hlt 0%nat 400 ltac:(lia) eq_refl). lia. }
    specialize (Hsame 1%nat ltac:(lia)). vm_compute in Hsame. discriminate.
Qed.

Lemma C2_witness :
  exists result s',
    demo_truncate 1%positive "openai/tiny" false demo_state = (Ok result, s') /\
    lists s' !! result = Some [1%positive; 2%positive] /\
    dicts s' !! 1%positive = dicts demo_state !! 1%positive /\
    (dicts s' !! 2%positive ≫= fun d' => dict_get d' "content")
    = Some (repeat_char "a" 14 +:+ " ... [373 tokens truncated] ... " +:+ repeat_char "a" 14).
Proof.
  destruct (C2_rewrites_first_longest_only
              demo_model_cost demo_count_tokens demo_encoding_for_model char_encoding
              demo_state 1%positive "openai/tiny" false demo_conversation)
    as (result & s' & items & i & k & d & content & conv' & Hrun & Hitems & Hfirst & Hi
        & Hd & Hcontent & Hres & Hdicts & Hnew & Hother & _).
  - vm_compute. reflexivity.
  - apply demo_has_content.
  - discriminate.
  - vm_compute. reflexivity.
  - assert (Hi1 : i = 1%nat).
    { destruct Hfirst as (n & Hn & Hle & _).
      destruct i as [|[|i]]; [| done | done].
      vm_compute in Hn. injection Hn as <-.
      specialize (Hle 1%nat 400 eq_refl). lia. }
    subst i. vm_compute in Hitems. injection Hitems as <-.
    injection Hi as <-. injection Hd as <-. injection Hcontent as <-.
    exists result, s'. split; [exact Hrun |]. split; [exact Hres |].
    split; [by apply Hother |]. exact Hnew.
Defined.

(** The total of [demo_state] is 473 structured tokens, but the warning
    speaks of the 400 tokens of the longest content: the numeral 473 does not
    occur in it.  Nor does it state the tokens cut: 14 and 14 of the 400
    tokens are kept, so 372 are taken out, and the warning says 373. *)
Lemma C3_counterexample :
  ~ warns_with_conversation_total demo_count_tokens
      (demo_truncate 1%positive "openai/tiny" false)
      demo_state 1%positive "openai/tiny"
  /\ exists result s' text,
       demo_truncate 1%positive "openai/tiny" false demo_state = (Ok result, s') /\
       console s' = [text] /\
       (dicts s' !! 2%positive ≫= fun d' => dict_get d' "content")
       = Some (repeat_char "a" 14 +:+ marker_text 373 +:+ repeat_char "a" 14) /\
       states_number (400 - 14 - 14) text = false /\
       states_number 373 text = true.
Proof.
  split.
  - intros (result & s' & conv & text & Hrun & Hconv & Hconsole & Hstates).
    rewrite demo_run in Hrun. injection Hrun as <- <-.
    rewrite demo_conversation_ok in Hconv. injection Hconv as <-.
    simpl in Hconsole. injection Hconsole as <-.
    vm_compute in Hstates. discriminate.
  - do 3 eexists. split; [apply demo_run |].
    split; [reflexivity |]. split; [vm_compute; reflexivity |].
    split; vm_compute; reflexivity.
Qed.

Lemma C3_witness :
  exists (result : loc) (s' : state) (taken_out : list Z),
    demo_truncate 1%positive "openai/tiny" false demo_state = (Ok result, s') /\
    console s' =
      ["[yellow]User Warning:[/yellow] Cutting 373 tokens from a prompt with 400 tokens..."] /\
    len taken_out = 372.
Proof.
  destruct (C3_one_warning_with_encoded_length
              demo_model_cost demo_count_tokens demo_encoding_for_model char_encoding
              demo_state 1%positive "openai/tiny" false demo_conversation)
    as (result & s' & items & i & k & d & content & taken_out & Hrun & Hitems & Hfirst
        & Hi & Hd & Hcontent & Hconsole & _ & _ & _ & _ & _ & Hlen).
  - vm_compute. reflexivity.
  - apply demo_has_content.
  - discriminate.
  - vm_compute. reflexivity.
  - assert (Hi1 : i = 1%nat).
    { destruct Hfirst as (n & Hn & Hle & _).
      destruct i as [|[|i]]; [| done | done].
      vm_compute in Hn. injection Hn as <-.
      specialize (Hle 1%nat 400 eq_refl). lia. }
    subst i. injection Hd as <-. injection Hcontent as <-.
    exists result, s', taken_out. split; [exact Hrun |].
    split; [| exact Hlen].
    pose proof Hrun as Hrun'. fold_demo_run Hrun'.
    reflexivity.
Defined.

Lemma C4_witness :
  exists result s',
    demo_truncate 1%positive "openai/tiny" false demo_state = (Ok result, s') /\
    (dicts s' !! 2%positive ≫= fun d' => dict_get d' "content")
    = Some (repeat_char "a" 14 +:+ " ... [373 tokens truncated] ... " +:+ repeat_char "a" 14).
Proof.
  destruct (C4_cut_around_the_middle
              demo_model_cost demo_count_tokens demo_encoding_for_model char_encoding
              demo_state 1%positive "openai/tiny" false demo_conversation)
    as (result & s' & items & i & k & d & content & Hrun & _).
  - vm_compute. reflexivity.
  - apply demo_has_content.
  - discriminate.
  - vm_compute. reflexivity.
  - exists result, s'. split; [exact Hrun |].
    pose proof Hrun as Hrun'. fold_demo_run Hrun'.
    vm_compute. reflexivity.
Defined.

Lemma C9_witness :
  demo_truncate 2%positive "openai/tiny" false demo_state_after
  = (Ok 2%positive, demo_state_after).
Proof.
  apply (C9_second_pass_is_identity
           demo_model_cost demo_count_tokens demo_encoding_for_model char_encoding
           demo_state 1%positive "openai/tiny" false false 2%positive demo_state_after
           [ [("role", "system"); ("content", "Be brief.")];
             [("role", "user");
              ("content",
               repeat_char "a" 14 +:+ " ... [373 tokens truncated] ... "
               +:+ repeat_char "a" 14)] ]).
  - vm_compute. reflexivity.
  - vm_compute. reflexivity.
  - vm_compute. discriminate.
Defined.

(** One pass need not bring a conversation under the budget: with two long
    messages the first pass empties the first one and the second pass then
    cuts the other. *)
Example second_pass_may_cut_again :
  exists r1 s1 r2 s2,
    demo_truncate 1%positive "tiny" false two_long_messages_state = (Ok r1, s1) /\
    demo_truncate r1 "tiny" false s1 = (Ok r2, s2) /\
    (dicts s1 !! 1%positive ≫= fun d => dict_get d "content")
      = Some " ... [400 tokens truncated] ... " /\
    dicts s1 !! 2%positive = dicts two_long_messages_state !! 2%positive /\
    dicts s2 !! 2%positive <> dicts s1 !! 2%positive.
Proof.
  do 4 eexists. split; [vm_compute; reflexivity |].
  split; [vm_compute; reflexivity |].
  split; [vm_compute; reflexivity |].
  split; [vm_compute; reflexivity |].
  vm_compute. discriminate.
Qed.

Lemma C10_witness :
  exists result s',
    demo_truncate 1%positive "openai/tiny" false demo_state = (Ok result, s') /\
    result <> 1%positive /\
    lists s' !! result = lists s' !! 1%positive /\
    conversation s' 1%positive = conversation s' result /\
    (conversation s' 1%positive ≫= fun conv' =>
       conv' !! 1%nat ≫= fun d' => dict_get d' "content")
    = Some (repeat_char "a" 14 +:+ " ... [373 tokens truncated] ... " +:+ repeat_char "a" 14).
Proof.
  destruct (C10_messages_are_shared
              demo_model_cost demo_count_tokens demo_encoding_for_model char_encoding
              demo_state 1%positive "openai/tiny" false demo_conversation)
    as (_ & result & s' & items & i & k & d & content & Hrun & Hitems & Hnew & Hne
        & Hres & Hold & Hfirst & Hi & Hd & Hcontent & _ & _ & _ & Hsame & _ & Hseen).
  - vm_compute. reflexivity.
  - apply demo_has_content.
  - discriminate.
  - vm_compute. reflexivity.
  - assert (Hi1 : i = 1%nat).
    { destruct Hfirst as (n & Hn & Hle & _).
      destruct i as [|[|i]]; [| done | done].
      vm_compute in Hn. injection Hn as <-.
      specialize (Hle 1%nat 400 eq_refl). lia. }
    subst i. injection Hd as <-. injection Hcontent as <-.
    exists result, s'. split; [exact Hrun |]. split; [exact Hne |].
    split; [rewrite Hres; symmetry; exact Hold |].
    split; [symmetry; exact Hsame | exact Hseen].
Defined.

(** ** The timeout decorator *)

Module GuardFacts.
Import Guard.

Lemma run_threads_cons t cs th ths :
  run_threads t cs (th :: ths) =
  ((run_threads t (store_of t th cs) ths).1,
   ended t th :: (run_threads t (store_of t th cs) ths).2).
Proof.
  cbn [run_threads].
  by destruct (run_threads t (store_of t th cs) ths).
Qed.

Lemma run_threads_app t ths : forall cs ths',
  run_threads t cs (ths ++ ths') =
  ((run_threads t (run_threads t cs ths).1 ths').1,
   (run_threads t cs ths).2 ++ (run_threads t (run_threads t cs ths).1 ths').2).
Proof.
  induction ths as [|th ths IH]; intros cs ths'.
  - simpl. by destruct (run_threads t cs ths').
  - rewrite <- app_comm_cons, !run_threads_cons, IH. done.
Qed.

Lemma run_threads_length t ths : forall cs,
  length (run_threads t cs ths).2 = length ths.
Proof.
  induction ths as [|th ths IH]; intros cs; [done |].
  rewrite run_threads_cons. simpl. by rewrite IH.
Qed.

(** A slot that no pending store aims at keeps its content. *)
Lemma run_threads_frame t l ths : forall cs,
  Forall (fun th => forall l' o, on_finish th = Some (l', o) -> l' <> l) ths ->
  (run_threads t cs ths).1 !! l = cs !! l.
Proof.
  induction ths as [|th ths IH]; intros cs Hths; [done |].
  apply Forall_cons in Hths as [Hth Hths].
  rewrite run_threads_cons. simpl. rewrite IH by done.
  unfold store_of. destruct (due t th); [| done].
  destruct (on_finish th) as [[l' o]|] eqn:E; [| done].
  rewrite lookup_insert_ne; [done |]. by apply (Hth l' o).
Qed.

(** In a well-formed world no pending store aims at a fresh slot. *)
Lemma wf_avoids_fresh w :
  wf w ->
  Forall (fun th => forall l' o, on_finish th = Some (l', o) ->
                                 l' <> fresh (dom (cells w))) (threads w).
Proof.
  unfold wf. intros H. eapply Forall_impl; [exact H |].
  simpl. intros th Hth l' o E.
  unfold wf_thread in Hth. rewrite E in Hth.
  intros ->. apply (is_fresh (dom (cells w))). by apply elem_of_dom.
Qed.

(** What [wrapper] does, in one equation: the slot is allocated, the
    thread is appended, time passes until the thread ends or the timeout
    elapses, and the slot is read. *)
Lemma wrapper_slot w seconds func :
  wf w ->
  let l := fresh (dom (cells w)) in
  let th := target l func (clock w) in
  let t := join_time (clock w) seconds th in
  let w3 := (wrapper seconds func w).2 in
  clock w3 = Z.max (clock w) t /\
  cells w3 !! l = store_of t th {[ l := ExnObj timed_out ]} !! l /\
  threads w3 !! length (threads w) = Some (ended t th) /\
  (wrapper seconds func w).1 =
    match cells w3 !! l with
    | Some (ExnObj e as o) => if isinstance_Exception o then Some (Raise e) else Some (Return o)
    | Some o => Some (Return o)
    | None => None
    end.
Proof.
  intros Hwf l th t w3.
  assert (Halive : alive th = true) by (unfold th, target; by destruct func).
  assert (Hw3 : (wrapper seconds func w).2 =
                advance t (mk_world (clock w) (<[l := ExnObj timed_out]> (cells w))
                                    (threads w ++ [th]))).
  { unfold wrapper, alloc, Thread_start, Thread_join. simpl.
    rewrite lookup_app_r, Nat.sub_diag by done. simpl.
    fold l. fold th. rewrite Halive. fold t.
    by repeat case_match. }
  assert (Hres : (wrapper seconds func w).1 =
    match cells w3 !! l with
    | Some (ExnObj e as o) => if isinstance_Exception o then Some (Raise e) else Some (Return o)
    | Some o => Some (Return o)
    | None => None
    end).
  { unfold w3. rewrite Hw3.
    unfold wrapper, alloc, Thread_start, Thread_join. simpl.
    rewrite lookup_app_r, Nat.sub_diag by done. simpl.
    fold l. fold th. rewrite Halive. fold t.
    by repeat case_match. }
  split_and!; [| | | exact Hres]; unfold w3; rewrite Hw3; unfold advance; simpl;
    rewrite run_threads_app; simpl.
  - done.
  - unfold store_of. destruct (due t th); [| ].
    + destruct (on_finish th) as [[l' o]|] eqn:E.
      * destruct (decide (l' = l)) as [-> | Hne].
        -- by rewrite !lookup_insert_eq.
        -- rewrite !lookup_insert_ne by done.
           rewrite run_threads_frame by (by apply wf_avoids_fresh).
           by rewrite lookup_insert_eq, lookup_singleton_eq.
      * rewrite run_threads_frame by (by apply wf_avoids_fresh).
        by rewrite lookup_insert_eq, lookup_singleton_eq.
    + rewrite run_threads_frame by (by apply wf_avoids_fresh).
      by rewrite lookup_insert_eq, lookup_singleton_eq.
  - rewrite lookup_app_r; rewrite run_threads_length; [| done].
    by rewrite Nat.sub_diag.
Qed.

Lemma due_within l now seconds func :
  completes_within seconds func ->
  due (join_time now seconds (target l func now)) (target l func now) = true.
Proof.
  unfold completes_within, join_time, due.
  destruct func as [after v | after e |]; simpl; [| | done];
    intros H; apply Z.leb_le; lia.
Qed.

Lemma due_overrun l now seconds func :
  overruns seconds func ->
  due (join_time now seconds (target l func now)) (target l func now) = false.
Proof.
  unfold overruns, join_time, due.
  destruct func as [after v | after e |]; simpl; [| | done];
    intros H; apply Z.leb_gt; lia.
Qed.

(** C5, as amended: a call that returns [v] within the deadline makes the
    guard return exactly [v], provided [v] is not an instance of
    [Exception]; a returned object that is one is raised instead. *)
Theorem C5_returns_value_unless_exception w seconds after v :
  wf w ->
  completes_within seconds (Returns after v) ->
  (isinstance_Exception v = false ->
     (wrapper seconds (Returns after v) w).1 = Some (Return v)) /\
  (forall e, v = ExnObj e -> is_Exception (exn_class e) = true ->
     (wrapper seconds (Returns after v) w).1 = Some (Raise e)).
Proof.
  intros Hwf Hin.
  destruct (wrapper_slot w seconds (Returns after v) Hwf) as (_ & Hcell & _ & Hres).
  cbv zeta in Hcell, Hres.
  pose proof (due_within (fresh (dom (cells w))) (clock w) seconds _ Hin) as Hdue.
  unfold store_of in Hcell. rewrite Hdue in Hcell.
  simpl in Hcell. rewrite lookup_insert_eq in Hcell.
  rewrite Hcell in Hres. split.
  - intros Hv. rewrite Hres. destruct v as [u | e]; [done |].
    by rewrite Hv.
  - intros e -> He. rewrite Hres. simpl. by rewrite He.
Qed.


(** A failure outside the [Exception] hierarchy is not captured: the
    thread ends without a store and the guard reports the timeout. *)
Lemma wrapper_uncaught w seconds after e :
  wf w ->
  is_Exception (exn_class e) = false ->
  (wrapper seconds (Raises after e) w).1 = Some (Raise timed_out).
Proof.
  intros Hwf He.
  destruct (wrapper_slot w seconds (Raises after e) Hwf) as (_ & Hcell & _ & Hres).
  cbv zeta in Hcell, Hres. unfold store_of in Hcell. simpl in Hcell.
  rewrite He in Hcell.
  assert (Hslot : cells (wrapper seconds (Raises after e) w).2
                    !! fresh (dom (cells w)) = Some (ExnObj timed_out)).
  { rewrite Hcell. destruct (due _ _); by rewrite lookup_singleton_eq. }
  by rewrite Hres, Hslot.
Qed.



Lemma run_threads_ended t ths : forall cs,
  (run_threads t cs ths).2 = ended t <$> ths.
Proof.
  induction ths as [|th ths IH]; intros cs; [done |].
  rewrite run_threads_cons, fmap_cons. simpl. by rewrite IH.
Qed.


(** The world that [wrapper] leaves behind. *)
Lemma wrapper_world w seconds func :
  (wrapper seconds func w).2 =
  advance (join_time (clock w) seconds (target (fresh (dom (cells w))) func (clock w)))
          (mk_world (clock w)
                    (<[fresh (dom (cells w)) := ExnObj timed_out]> (cells w))
                    (threads w ++ [target (fresh (dom (cells w))) func (clock w)])).
Proof.
  unfold wrapper, alloc, Thread_start, Thread_join, join_time. simpl.
  rewrite lookup_app_r, Nat.sub_diag by done. simpl.
  assert (Halive : alive (target (fresh (dom (cells w))) func (clock w)) = true)
    by (by destruct func).
  rewrite Halive. by repeat case_match.
Qed.



(** After the guard has given up, the thread goes on: once time reaches
    the end of an overrunning call, its result lands in the slot that
    nobody reads any more. *)
Lemma detached_thread_stores w seconds after v :
  wf w ->
  overruns seconds (Returns after v) ->
  cells (advance (clock w + Z.max 0 after)
                 (wrapper seconds (Returns after v) w).2)
    !! fresh (dom (cells w)) = Some v.
Proof.
  intros Hwf Hover. rewrite wrapper_world.
  set (l := fresh (dom (cells w))).
  set (th := target l (Returns after v) (clock w)).
  set (t := join_time (clock w) seconds th).
  unfold advance at 2. simpl.
  destruct (run_threads t (<[l := ExnObj timed_out]> (cells w)) (threads w ++ [th]))
    as [cs ths] eqn:E.
  assert (Hths : ths = (ended t <$> threads w) ++ [th]).
  { pose proof (run_threads_ended t (threads w ++ [th])
                  (<[l := ExnObj timed_out]> (cells w))) as H.
    rewrite E in H. simpl in H. rewrite H, fmap_app. f_equal. simpl.
    unfold ended. unfold t, th, l. by rewrite due_overrun. }
  subst ths. unfold advance. simpl. rewrite run_threads_app. simpl.
  unfold store_of.
  assert (Hdue : due (clock w + Z.max 0 after) th = true).
  { unfold due, th. simpl. apply Z.leb_le. lia. }
  rewrite Hdue. simpl. by rewrite lookup_insert_eq.
Qed.

End GuardFacts.

(** ** Guarded calls in the empty world *)

Lemma empty_world_wf : Guard.wf Guard.empty_world.
Proof. constructor. Defined.

(** A call that returns an exception object as its value: the guard raises
    it rather than returning it. *)
Lemma C5_counterexample :
  ~ Guard.guard_returns Guard.empty_world 5 1
      (Guard.ExnObj (mk_exn ValueError [PStr "bad input"])).
Proof. unfold Guard.guard_returns. vm_compute. discriminate. Qed.

Lemma C5_witness :
  (Guard.wrapper 5 (Guard.Returns 3 (Guard.Val (PInt 7))) Guard.empty_world).1
  = Some (Guard.Return (Guard.Val (PInt 7))).
Proof.
  apply (GuardFacts.C5_returns_value_unless_exception
           Guard.empty_world 5 3 (Guard.Val (PInt 7))).
  - apply empty_world_wf.
  - simpl. lia.
  - reflexivity.
Defined.




(** ** The rendering of InvalidOutputError *)

Section rendering.

Import PyStr.

Abbreviation no_LF s := (contains_char LF s = false).

Lemma append_cons d (a b : string) : String d a +:+ b = String d (a +:+ b).
Proof. reflexivity. Qed.

Lemma append_nil (b : string) : "" +:+ b = b.
Proof. reflexivity. Qed.

Lemma contains_char_app c a b :
  contains_char c (a +:+ b) = contains_char c a || contains_char c b.
Proof.
  induction a as [|d a IH]; [done |].
  rewrite append_cons. cbn [contains_char].
  by destruct (Ascii.eqb c d).
Qed.

Lemma no_LF_app a b : no_LF a -> no_LF b -> no_LF (a +:+ b).
Proof. intros Ha Hb. by rewrite contains_char_app, Ha, Hb. Qed.

Lemma no_LF_join sep l :
  no_LF sep -> Forall (fun s => no_LF s) l -> no_LF (join sep l).
Proof.
  intros Hsep. induction 1 as [|s l Hs Hl IH]; [done |].
  cbn [join]. destruct l as [|s' l']; [done |].
  apply no_LF_app; [done |]. by apply no_LF_app.
Qed.

Lemma app_assoc_str (a b c : string) : (a +:+ b) +:+ c = a +:+ (b +:+ c).
Proof.
  induction a as [|d a IH]; [done |]. rewrite !append_cons. by rewrite IH.
Qed.

Lemma app_empty_r (a : string) : a +:+ "" = a.
Proof.
  induction a as [|d a IH]; [done |]. rewrite append_cons. by rewrite IH.
Qed.

(** Splitting a text without the separator gives one piece. *)
Lemma split_acc_no_sep a : forall cur,
  no_LF a -> split_acc LF cur a = [cur +:+ a].
Proof.
  induction a as [|d a IH]; intros cur; cbn [split_acc contains_char].
  - intros _. by rewrite app_empty_r.
  - rewrite Ascii.eqb_sym. destruct (Ascii.eqb d LF) eqn:E; [done |].
    intros H. rewrite IH by done.
    by rewrite app_assoc_str.
Qed.

(** Splitting at the first separator. *)
Lemma split_acc_first a b : forall cur,
  no_LF a ->
  split_acc LF cur (a +:+ String LF b) = (cur +:+ a) :: split_acc LF "" b.
Proof.
  induction a as [|d a IH]; intros cur;
    [rewrite append_nil | rewrite append_cons]; cbn [split_acc contains_char].
  - intros _. rewrite Ascii.eqb_refl. by rewrite app_empty_r.
  - rewrite Ascii.eqb_sym. destruct (Ascii.eqb d LF) eqn:E; [done |].
    intros H. rewrite IH by done.
    by rewrite app_assoc_str.
Qed.

Lemma lines_first a b :
  no_LF a -> lines (a +:+ String LF b) = a :: lines b.
Proof. intros H. unfold lines, split. by rewrite split_acc_first. Qed.

Lemma lines_last a : no_LF a -> lines a = [a].
Proof. intros H. unfold lines, split. by rewrite split_acc_no_sep. Qed.

(** [repr] of a text never holds a line break: it is escaped. *)
Lemma no_LF_repr_char q c :
  q = SQUOTE \/ q = DQUOTE -> no_LF (repr_char q c).
Proof.
  intros [-> | ->];
    destruct c as [[] [] [] [] [] [] [] []]; vm_compute; reflexivity.
Qed.

Lemma repr_quote_cases s : repr_quote s = SQUOTE \/ repr_quote s = DQUOTE.
Proof. unfold repr_quote. destruct (_ && _); auto. Qed.

Lemma no_LF_repr_body q s :
  q = SQUOTE \/ q = DQUOTE -> no_LF (repr_body q s).
Proof.
  intros Hq. induction s as [|c s IH]; [done |].
  cbn [repr_body]. apply no_LF_app; [by apply no_LF_repr_char | done].
Qed.

Lemma no_LF_repr_str s : no_LF (repr_str s).
Proof.
  unfold repr_str. pose proof (repr_quote_cases s) as Hq.
  change (String (repr_quote s) (repr_body (repr_quote s) s +:+ chr (repr_quote s)))
    with (chr (repr_quote s) +:+ (repr_body (repr_quote s) s +:+ chr (repr_quote s))).
  assert (no_LF (chr (repr_quote s))) by (destruct Hq as [-> | ->]; reflexivity).
  apply no_LF_app; [done |]. apply no_LF_app; [| done].
  by apply no_LF_repr_body.
Qed.

(** A decimal numeral has digits and at most a sign. *)
Lemma no_LF_uint d : no_LF (NilEmpty.string_of_uint d).
Proof. induction d; simpl; done. Qed.

Lemma no_LF_str_of_int n : no_LF (str_of_int n).
Proof.
  unfold str_of_int, NilZero.string_of_int.
  destruct (Z.to_int n) as [d | d]; unfold NilZero.string_of_uint.
  - destruct d; try reflexivity; apply no_LF_uint.
  - change (no_LF (String "-" (match d with
                                | Decimal.Nil => "0"
                                | _ => NilEmpty.string_of_uint d
                                end))).
    simpl. destruct d; try reflexivity; apply no_LF_uint.
Qed.

(** Induction on printable values, through the lists they hold. *)
Lemma pyval_nested_ind (P : pyval -> Prop) :
  P PNone ->
  (forall b, P (PBool b)) ->
  (forall n, P (PInt n)) ->
  (forall s, P (PStr s)) ->
  (forall items, Forall P items -> P (PList items)) ->
  (forall entries, Forall (fun kv => P kv.2) entries -> P (PDict entries)) ->
  forall v, P v.
Proof.
  intros HN HB HI HS HL HD. fix IH 1.
  intros [| b | n | s | items | entries].
  - exact HN.
  - apply HB.
  - apply HI.
  - apply HS.
  - apply HL. induction items as [|x xs IHxs]; constructor; [apply IH | exact IHxs].
  - apply HD. induction entries as [|[k x] xs IHxs]; constructor; [apply IH | exact IHxs].
Qed.

(** [repr] of a value never holds a line break. *)
Lemma no_LF_py_repr v : no_LF (py_repr v).
Proof.
  induction v as [| b | n | s | items IH | entries IH] using pyval_nested_ind.
  - reflexivity.
  - by destruct b.
  - apply no_LF_str_of_int.
  - apply no_LF_repr_str.
  - cbn [py_repr]. apply no_LF_app; [done |]. apply no_LF_app; [| done].
    apply no_LF_join; [done |]. by apply Forall_fmap.
  - cbn [py_repr]. apply no_LF_app; [done |]. apply no_LF_app; [| done].
    apply no_LF_join; [done |]. apply Forall_fmap.
    eapply Forall_impl; [exact IH |]. intros [k x] Hx. cbn [fst snd] in *.
    apply no_LF_app; [apply no_LF_repr_str |]. by apply no_LF_app.
Qed.

(** The rendering, piece by piece, and its lines when the two free-text
    fields hold no line break. *)
Lemma rendering_lines (e : InvalidOutputError) :
  InvalidOutputError_str e =
    message e +:+ chr LF
    +:+ "Invalid output: " +:+ output e +:+ chr LF
    +:+ "Expected schema: " +:+ py_repr (PDict (expected_schema e)) +:+ chr LF
    +:+ "Messages sent to LLM: " +:+ py_repr (pyval_of_dicts (messages e)) +:+ chr LF
    +:+ "Tool calls generated by LLM: " +:+ py_repr (pyval_of_tools (tools e))
  /\
  (no_LF (message e) -> no_LF (output e) ->
   lines (InvalidOutputError_str e) =
   [ message e;
     "Invalid output: " +:+ output e;
     "Expected schema: " +:+ py_repr (PDict (expected_schema e));
     "Messages sent to LLM: " +:+ py_repr (pyval_of_dicts (messages e));
     "Tool calls generated by LLM: " +:+ py_repr (pyval_of_tools (tools e)) ]).
Proof.
  assert (Hstr : InvalidOutputError_str e =
    message e +:+ String LF
      (("Invalid output: " +:+ output e) +:+ String LF
         (("Expected schema: " +:+ py_repr (PDict (expected_schema e))) +:+ String LF
            (("Messages sent to LLM: " +:+ py_repr (pyval_of_dicts (messages e)))
               +:+ String LF
               ("Tool calls generated by LLM: "
                  +:+ py_repr (pyval_of_tools (tools e))))))).
  { unfold InvalidOutputError_str, concat, py_str.
    rewrite app_empty_r.
    assert (Htools : forall t, match pyval_of_tools t with
                               | PStr s => s
                               | _ => py_repr (pyval_of_tools t)
                               end = py_repr (pyval_of_tools t))
      by (by intros [l|]).
    rewrite Htools. unfold pyval_of_dicts at 1.
    rewrite !app_assoc_str. reflexivity. }
  split.
  - rewrite Hstr. rewrite !app_assoc_str. reflexivity.
  - intros Hm Ho. rewrite Hstr.
    rewrite lines_first by done.
    rewrite lines_first by (by apply no_LF_app).
    rewrite lines_first by (apply no_LF_app; [done | apply no_LF_py_repr]).
    rewrite lines_first by (apply no_LF_app; [done | apply no_LF_py_repr]).
    rewrite lines_last by (apply no_LF_app; [done | apply no_LF_py_repr]).
    reflexivity.
Qed.

(** C8, as amended: the rendering is the message, then the raw output,
    the expected schema, the message history and the tool calls, in this
    order; the message comes first without a label and each of the other
    four starts a new line with its label.  When neither the message nor
    the raw output holds a line break, the rendering has exactly five
    lines, one for each field. *)
Theorem C8_rendering_order_and_lines (e : InvalidOutputError) :
  InvalidOutputError_str e =
    message e +:+ chr LF
    +:+ "Invalid output: " +:+ output e +:+ chr LF
    +:+ "Expected schema: " +:+ py_repr (PDict (expected_schema e)) +:+ chr LF
    +:+ "Messages sent to LLM: " +:+ py_repr (pyval_of_dicts (messages e)) +:+ chr LF
    +:+ "Tool calls generated by LLM: " +:+ py_repr (pyval_of_tools (tools e))
  /\
  (no_LF (message e) -> no_LF (output e) ->
   lines (InvalidOutputError_str e) =
   [ message e;
     "Invalid output: " +:+ output e;
     "Expected schema: " +:+ py_repr (PDict (expected_schema e));
     "Messages sent to LLM: " +:+ py_repr (pyval_of_dicts (messages e));
     "Tool calls generated by LLM: " +:+ py_repr (pyval_of_tools (tools e)) ]).
Proof. apply rendering_lines. Qed.

End rendering.

Lemma length_append (a b : string) :
  String.length (a +:+ b) = (String.length a + String.length b)%nat.
Proof.
  induction a as [|c a IH]; [done |].
  change (S (String.length (a +:+ b)) = S (String.length a + String.length b)).
  by rewrite IH.
Qed.

Lemma append_same_length (l m : string) : l +:+ m = m -> l = "".
Proof.
  intros H. apply (f_equal String.length) in H.
  rewrite length_append in H.
  destruct l; [done | simpl in H; lia].
Qed.

(** The message line carries no label, even when every field fits on one
    line; and a raw output of two lines gives a rendering of six lines, so
    the fields are not one per line either. *)
Lemma C8_counterexample :
  ~ five_labeled_lines sample_error /\ ~ five_lines two_line_output_error.
Proof.
  split.
  - intros (l1 & l2 & l3 & l4 & l5 & H1 & _ & _ & _ & _ & H).
    rewrite (proj2 (rendering_lines sample_error) eq_refl eq_refl) in H.
    injection H as H _ _ _ _. symmetry in H.
    by apply append_same_length in H.
  - intros (l1 & l2 & l3 & l4 & l5 & H).
    assert (Hlen : length (PyStr.lines (InvalidOutputError_str two_line_output_error))
                   = 6%nat)
      by (vm_compute; reflexivity).
    rewrite H in Hlen. discriminate Hlen.
Qed.

Lemma C8_witness :
  PyStr.lines (InvalidOutputError_str sample_error) =
  [ "Could not parse output";
    "Invalid output: {not json";
    "Expected schema: {'name': 'string', 'age': 'integer'}";
    "Messages sent to LLM: [{'role': 'user', 'content': 'Extract the name and the age'}]";
    "Tool calls generated by LLM: None" ].
Proof.
  apply (proj2 (C8_rendering_order_and_lines sample_error)).
  - reflexivity.
  - reflexivity.
Defined.

(** * Further properties *)

(** ** How code in [Py] can end *)

Lemma bind_inv {A B} (m : Py A) (f : A -> Py B) s r s' :
  (m ≫= f) s = (r, s') ->
  (exists a s0, m s = (Ok a, s0) /\ f a s0 = (r, s')) \/
  (exists ra, m s = (ra, s') /\ same_failure ra r).
Proof.
  unfold mbind, Py_bind. destruct (m s) as [[a | c |] s0]; intros H.
  - left. eauto.
  - right. injection H as <- <-. by exists (Raised c).
  - right. injection H as <- <-. by exists Stuck.
Qed.

Lemma same_failure_not_Ok {A B} (ra : result A) (rb : result B) :
  same_failure ra rb -> is_Ok rb = false.
Proof. by destruct ra, rb. Qed.

Lemma list_items_reads l s r s' : list_items l s = (r, s') -> s' = s.
Proof. unfold list_items. destruct (lists s !! l); by intros [= _ <-]. Qed.

Lemma getitem_missing s p d k :
  dicts s !! p = Some d -> dict_get d k = None ->
  getitem p k s = (Raised KeyError, s).
Proof.
  intros Hp Hk. unfold getitem.
  rewrite (bind_ok _ _ _ _ _ (dict_at_ok _ _ _ Hp)). by rewrite Hk.
Qed.

(** ** More on truncate_messages *)

Section truncate_more.

Variable model_cost : gmap string (gmap string Z).
Variable count_tokens : string -> string -> Z.
Variable encoding_for_model : string -> option Encoding.
Variable gpt_4o : Encoding.

Abbreviation truncate :=
  (truncate_messages model_cost count_tokens encoding_for_model gpt_4o).
Abbreviation budget := (model_input_context_length model_cost).
Abbreviation total := (total_structured_tokens count_tokens).
Abbreviation encoder := (resolve_encoder encoding_for_model gpt_4o).

(** What a call may change, on every path: list objects that exist stay as
    they are, and either no dict and no console line changes, or the call
    succeeds, one dict that has a [content] entry gets a new content, and
    one line is printed. *)
Lemma truncate_messages_frame s messages model from_agent r s' :
  truncate messages model from_agent s = (r, s') ->
  (forall l v, lists s !! l = Some v -> lists s' !! l = Some v) /\
  ((is_Ok r = false \/ r = Ok messages) /\ dicts s' = dicts s /\ console s' = console s
   \/ exists k d new text,
        is_Ok r = true /\ dicts s !! k = Some d /\ is_Some (dict_get d "content") /\
        dicts s' = <[k := dict_set d "content" new]> (dicts s) /\
        console s' = console s ++ [text]).
Proof.
  unfold truncate_messages. intros H.
  apply bind_inv in H as [(items & s0 & Hitems & H) | (ra & Hm & Hf)]; cycle 1.
  { apply list_items_reads in Hm as ->. apply same_failure_not_Ok in Hf.
    split; [done |]. left. auto. }
  apply list_items_inv in Hitems as [Hl ->].
  apply bind_inv in H as [(t & s0 & Hsum & H) | (ra & Hm & Hf)]; cycle 1.
  { apply sum_tokens_reads in Hm as ->. apply same_failure_not_Ok in Hf.
    split; [done |]. left. auto. }
  apply sum_tokens_reads in Hsum as ->.
  destruct (t <=? budget model - 100).
  { injection H as <- <-. split; [done |]. left. auto. }
  assert (Hfresh : lists s !! fresh (dom (lists s)) = None)
    by (apply not_elem_of_dom, is_fresh).
  assert (Hkeep : forall l v, lists s !! l = Some v ->
                    <[fresh (dom (lists s)) := items]> (lists s) !! l = Some v).
  { intros l v Hv. rewrite lookup_insert_ne; [done | congruence]. }
  apply bind_inv in H as [(l' & s1 & Hcopy & H) | (ra & Hm & Hf)]; cycle 1.
  { unfold list_copy in Hm. rewrite Hl in Hm. injection Hm as <- <-. done. }
  unfold list_copy in Hcopy. rewrite Hl in Hcopy. injection Hcopy as <- <-.
  apply bind_inv in H as [(copied & s1 & Hcopied & H) | (ra & Hm & Hf)]; cycle 1.
  { apply list_items_reads in Hm as ->. apply same_failure_not_Ok in Hf.
    split; [done |]. left. auto. }
  apply list_items_inv in Hcopied as [_ ->].
  apply bind_inv in H as [(k & s1 & Hmax & H) | (ra & Hm & Hf)]; cycle 1.
  { apply max_by_content_len_reads in Hm as ->. apply same_failure_not_Ok in Hf.
    split; [done |]. left. auto. }
  apply max_by_content_len_reads in Hmax as ->.
  apply bind_inv in H as [(c & s1 & Hget & H) | (ra & Hm & Hf)]; cycle 1.
  { apply getitem_reads in Hm as ->. apply same_failure_not_Ok in Hf.
    split; [done |]. left. auto. }
  pose proof (getitem_reads _ _ _ _ _ Hget) as ->.
  unfold getitem in Hget.
  apply bind_ok_inv in Hget as (d & s1 & Hd & Hget).
  unfold dict_at in Hd. simpl in Hd.
  destruct (dicts s !! k) as [d0|] eqn:Hk; [| done].
  injection Hd as -> <-.
  destruct (dict_get d "content") as [c0|] eqn:Hc; [| done].
  cbv zeta in H. unfold mbind, Py_bind, rprint, setitem, mret, Py_ret in H.
  simpl in H. rewrite Hk in H. injection H as <- <-. simpl.
  split; [done |]. right. eexists k, d, _, _.
  split_and!; [done | done | by rewrite Hc | done | done].
Qed.

(** A call that does not return a list has changed no message and printed
    nothing, and in every case the list objects that existed before the
    call (its argument among them) are as they were. *)
Theorem failed_call_changes_nothing s messages model from_agent r s' :
  truncate messages model from_agent s = (r, s') ->
  (forall l v, lists s !! l = Some v -> lists s' !! l = Some v) /\
  (is_Ok r = false -> dicts s' = dicts s /\ console s' = console s).
Proof.
  intros H. apply truncate_messages_frame in H as [Hlists Hrest].
  split; [done |]. intros Hr.
  destruct Hrest as [(_ & ? & ?) | (k & d & new & text & Hok & _)]; [done |].
  congruence.
Qed.

(** Whatever the input, a call neither adds nor drops a dict, keeps the
    keys of every dict in their order, and changes no entry other than a
    [content]. *)
Theorem only_content_entries_change s messages model from_agent r s' :
  truncate messages model from_agent s = (r, s') ->
  dom (dicts s') = dom (dicts s) /\
  forall (p : loc) (d d' : dict),
    dicts s !! p = Some d -> dicts s' !! p = Some d' ->
    d'.*1 = d.*1 /\
    forall key, key <> "content" -> dict_get d' key = dict_get d key.
Proof.
  intros H. destruct (truncate_messages_frame _ _ _ _ _ _ H) as [_ Hrest].
  destruct Hrest as [(_ & -> & _) | (k & d0 & new & text & _ & Hk & Hc & -> & _)].
  - split; [done |]. intros p d d' Hd Hd'.
    assert (d' = d) as -> by congruence. done.
  - split.
    + rewrite dom_insert_L. apply elem_of_dom_2 in Hk.
      apply subseteq_union_1_L. by apply singleton_subseteq_l.
    + intros p d d' Hd Hd'. destruct (decide (k = p)) as [Heq | Hne].
      * subst p. rewrite lookup_insert_eq in Hd'.
        assert (d = d0) as -> by congruence.
        assert (d' = dict_set d0 "content" new) as -> by congruence.
        split; [by apply dict_set_keys |].
        intros key Hkey. by apply dict_get_set_ne.
      * rewrite lookup_insert_ne in Hd' by done.
        assert (d' = d) as -> by congruence. done.
Qed.

(** The [max] loop raises [KeyError] at the first message without a
    [content] entry, whatever the lengths seen so far. *)
Lemma max_loop_missing_content s rest conv :
  Forall2 (fun p d => dicts s !! p = Some d) rest conv ->
  Exists (fun d => dict_get d "content" = None) conv ->
  forall best best_key,
    max_loop best best_key rest s = (Raised KeyError, s).
Proof.
  induction 1 as [|p d rest conv Hp _ IH]; intros Hex best bk.
  - inversion Hex.
  - cbn [max_loop]. destruct (dict_get d "content") as [c|] eqn:Hc.
    + rewrite (bind_ok _ _ _ _ _ (getitem_ok _ _ _ _ _ Hp Hc)).
      assert (Hrest : Exists (fun d => dict_get d "content" = None) conv).
      { apply Exists_cons in Hex as [Hd | Hrest]; [congruence | done]. }
      destruct (bk <? PyStr.len c); by apply IH.
    + by rewrite (bind_raised _ _ _ _ _ (getitem_missing _ _ _ _ Hp Hc)).
Qed.

(** An empty conversation is over the budget less 100 exactly when the
    budget is below 100; the call then raises [ValueError] from [max], with
    no message changed and nothing printed. *)
Theorem empty_conversation_raises_ValueError s messages model from_agent :
  lists s !! messages = Some [] ->
  model_input_context_length model_cost model < 100 ->
  exists s',
    truncate_messages model_cost count_tokens encoding_for_model gpt_4o
                      messages model from_agent s
    = (Raised ValueError, s') /\
    dicts s' = dicts s /\ console s' = console s /\
    lists s' !! messages = Some [].
Proof.
  intros Hl Hb. unfold truncate_messages.
  rewrite (bind_ok _ _ _ _ _ (list_items_ok _ _ _ Hl)). simpl.
  assert (E : (0 <=? budget model - 100) = false) by (apply Z.leb_gt; lia).
  unfold mbind at 1, Py_bind, mret, Py_ret. rewrite E.
  unfold mbind, Py_bind, list_copy, list_items. rewrite Hl. simpl.
  rewrite lookup_insert_eq. simpl. eexists. split; [done |]. simpl.
  split_and!; [done | done |].
  rewrite lookup_insert_ne; [done |].
  intros Heq. pose proof (is_fresh (dom (lists s))) as Hfresh.
  apply Hfresh. rewrite Heq. by apply elem_of_dom_2 in Hl.
Qed.

(** Over the budget less 100, one message without a [content] entry makes
    the call raise [KeyError], wherever that message stands and however
    short it is; no message is changed and nothing is printed. *)
Theorem missing_content_raises_KeyError s messages model from_agent conv :
  conversation s messages = Some conv ->
  budget model - 100 < total model conv ->
  Exists (fun d => dict_get d "content" = None) conv ->
  exists s',
    truncate messages model from_agent s = (Raised KeyError, s') /\
    dicts s' = dicts s /\ console s' = console s.
Proof.
  unfold conversation. intros Hconv Hover Hex.
  destruct (lists s !! messages) as [items|] eqn:Hl; [simpl in Hconv | done].
  pose proof Hconv as HF. apply mapM_Some in HF.
  unfold truncate_messages.
  rewrite (bind_ok _ _ _ _ _ (list_items_ok _ _ _ Hl)).
  rewrite (bind_ok _ _ _ _ _ (sum_tokens_total _ model s items conv Hconv 0)).
  rewrite Z.add_0_l. apply Z.leb_gt in Hover. rewrite Hover.
  set (s1 := mk_state (<[fresh (dom (lists s)) := items]> (lists s)) (dicts s) (console s)).
  assert (Hcopy : list_copy messages s = (Ok (fresh (dom (lists s))), s1))
    by (unfold list_copy; by rewrite Hl).
  rewrite (bind_ok _ _ _ _ _ Hcopy).
  assert (Hl1 : lists s1 !! fresh (dom (lists s)) = Some items)
    by (simpl; apply lookup_insert_eq).
  rewrite (bind_ok _ _ _ _ _ (list_items_ok _ _ _ Hl1)).
  assert (Hmax : max_by_content_len items s1 = (Raised KeyError, s1)).
  { destruct HF as [|p d rest conv' Hp Hrest]; [inversion Hex |].
    cbn [max_by_content_len]. destruct (dict_get d "content") as [c|] eqn:Hc.
    - assert (Hp1 : dicts s1 !! p = Some d) by done.
      rewrite (bind_ok _ _ _ _ _ (getitem_ok _ _ _ _ _ Hp1 Hc)).
      apply (max_loop_missing_content s1 rest conv'); [done |].
      apply Exists_cons in Hex as [Hd | Hex]; [congruence | done].
    - assert (Hp1 : dicts s1 !! p = Some d) by done.
      by rewrite (bind_raised _ _ _ _ _ (getitem_missing _ _ _ _ Hp1 Hc)). }
  rewrite (bind_raised _ _ _ _ _ Hmax). by exists s1.
Qed.

(** The flag [from_agent] chooses the wording of the warning and nothing
    else: with either value the call ends the same way, leaves the same
    lists and dicts, and prints the same number of lines. *)
Theorem from_agent_only_words_the_warning s messages model :
  let run := truncate_messages model_cost count_tokens encoding_for_model gpt_4o
                               messages model in
  (run true s).1 = (run false s).1 /\
  lists (run true s).2 = lists (run false s).2 /\
  dicts (run true s).2 = dicts (run false s).2 /\
  length (console (run true s).2) = length (console (run false s).2).
Proof.
  cbv zeta.
  unfold truncate_messages, mbind, Py_bind.
  destruct (list_items messages s) as [[items | c |] s0]; [| done | done].
  destruct (sum_tokens count_tokens model 0 items s0) as [[t | c |] s1]; [| done | done].
  destruct (t <=? budget model - 100); [done |].
  destruct (list_copy messages s1) as [[l' | c |] s2]; [| done | done].
  destruct (list_items l' s2) as [[copied | c |] s3]; [| done | done].
  destruct (max_by_content_len copied s3) as [[k | c |] s4]; [| done | done].
  destruct (getitem k "content" s4) as [[c | c |] s5]; [| done | done].
  cbv zeta. unfold rprint, setitem, mret, Py_ret. simpl.
  destruct (dicts s5 !! k); simpl; [| by rewrite !length_app].
  by rewrite !length_app.
Qed.

End truncate_more.

(** ** The model name *)

Section model_name.

Variable model_cost : gmap string (gmap string Z).
Variable encoding_for_model : string -> option Encoding.
Variable gpt_4o : Encoding.

Lemma str_app_cons d (a b : string) : String d a +:+ b = String d (a +:+ b).
Proof. reflexivity. Qed.

Lemma str_app_assoc (a b c : string) : (a +:+ b) +:+ c = a +:+ (b +:+ c).
Proof.
  induction a as [|d a IH]; [done |]. rewrite !str_app_cons. by rewrite IH.
Qed.

Lemma str_app_nil_r (a : string) : a +:+ "" = a.
Proof.
  induction a as [|d a IH]; [done |]. rewrite str_app_cons. by rewrite IH.
Qed.

(** Splitting distributes over a separator: the pieces of [a sep b] are the
    pieces of [a] followed by the pieces of [b]. *)
Lemma split_acc_sep sep a b : forall cur,
  PyStr.split_acc sep cur (a +:+ String sep b)
  = PyStr.split_acc sep cur a ++ PyStr.split_acc sep "" b.
Proof.
  induction a as [|d a IH]; intros cur.
  - change ("" +:+ String sep b) with (String sep b).
    cbn [PyStr.split_acc]. by rewrite Ascii.eqb_refl.
  - rewrite str_app_cons. cbn [PyStr.split_acc].
    destruct (Ascii.eqb d sep); [by rewrite IH | apply IH].
Qed.

Lemma split_acc_nonempty sep s : forall cur, PyStr.split_acc sep cur s <> [].
Proof.
  induction s as [|d s IH]; intros cur; cbn [PyStr.split_acc]; [done |].
  destruct (Ascii.eqb d sep); [done | apply IH].
Qed.

Lemma split_acc_whole sep s : forall cur,
  PyStr.contains_char sep s = false ->
  PyStr.split_acc sep cur s = [cur +:+ s].
Proof.
  induction s as [|d s IH]; intros cur; cbn [PyStr.split_acc PyStr.contains_char].
  - intros _. by rewrite str_app_nil_r.
  - rewrite Ascii.eqb_sym. destruct (Ascii.eqb d sep); [done |].
    intros H. rewrite IH by done. by rewrite str_app_assoc.
Qed.

(** No piece of a split holds the separator. *)
Lemma split_acc_pieces sep s : forall cur,
  PyStr.contains_char sep cur = false ->
  Forall (fun piece => PyStr.contains_char sep piece = false)
         (PyStr.split_acc sep cur s).
Proof.
  induction s as [|d s IH]; intros cur Hcur; cbn [PyStr.split_acc].
  - by constructor.
  - destruct (Ascii.eqb d sep) eqn:E.
    + constructor; [done | by apply IH].
    + apply IH. rewrite contains_char_app, Hcur.
      unfold PyStr.chr. cbn [PyStr.contains_char orb].
      by rewrite Ascii.eqb_sym, E.
Qed.

Lemma last_app_nonempty (l1 l2 : list string) d :
  l2 <> [] -> List.last (l1 ++ l2) d = List.last l2 d.
Proof.
  intros H. induction l1 as [|x l1 IH]; [done |].
  rewrite <- app_comm_cons. cbn [List.last].
  destruct (l1 ++ l2) eqn:E; [| done].
  apply app_eq_nil in E as [_ ->]. done.
Qed.

Lemma bare_model_strips_prefix provider model :
  bare_model (provider +:+ String "/" model) = bare_model model.
Proof.
  unfold bare_model, PyStr.last_piece, PyStr.split.
  rewrite split_acc_sep. apply last_app_nonempty, split_acc_nonempty.
Qed.

Lemma bare_model_without_slash model :
  PyStr.contains_char "/" model = false -> bare_model model = model.
Proof.
  intros H. unfold bare_model, PyStr.last_piece, PyStr.split.
  by rewrite split_acc_whole.
Qed.

Lemma bare_model_has_no_slash model :
  PyStr.contains_char "/" (bare_model model) = false.
Proof.
  unfold bare_model, PyStr.last_piece, PyStr.split.
  pose proof (split_acc_pieces "/" model "" eq_refl) as H.
  pose proof (split_acc_nonempty "/" model "") as Hne.
  induction H as [|x l Hx Hl IH]; [done |].
  cbn [List.last]. destruct l; [done |]. by apply IH.
Qed.

(** Anything up to the last slash of a model name is ignored: a provider
    prefix changes neither the budget nor the tokenizer, the name that is
    looked up never holds a slash, and a name without a slash is looked up
    as it is. *)
Theorem provider_prefix_is_ignored provider model :
  bare_model (provider +:+ String "/" model) = bare_model model /\
  model_input_context_length model_cost (provider +:+ String "/" model)
    = model_input_context_length model_cost model /\
  resolve_encoder encoding_for_model gpt_4o (provider +:+ String "/" model)
    = resolve_encoder encoding_for_model gpt_4o model /\
  PyStr.contains_char "/" (bare_model model) = false /\
  (PyStr.contains_char "/" model = false -> bare_model model = model).
Proof.
  split_and!.
  - apply bare_model_strips_prefix.
  - unfold model_input_context_length. by rewrite bare_model_strips_prefix.
  - unfold resolve_encoder. by rewrite bare_model_strips_prefix.
  - apply bare_model_has_no_slash.
  - apply bare_model_without_slash.
Qed.

(** A model that the cost table does not list, or lists without a
    [max_input_tokens] entry, gets the budget 8192. *)
Lemma unknown_model_budget model :
  (model_cost !! bare_model model ≫= fun entry => entry !! "max_input_tokens") = None ->
  model_input_context_length model_cost model = 8192.
Proof.
  unfold model_input_context_length.
  destruct (model_cost !! bare_model model) as [entry|]; simpl; [| done].
  by intros ->.
Qed.

End model_name.

(** ** The cut *)

(** The tokens that a cut takes out are the [2 * (tokens_to_remove // 2)]
    tokens around the middle: as many as the marker announces when that
    number is even, and one fewer when it is odd.  The new sequence is that
    much shorter than the old one, plus the marker. *)
Theorem cut_takes_out_an_even_number (toks marker : list Z) (excess : Z) :
  0 <= excess ->
  let r := tokens_to_remove toks excess in
  let kept_before := firstn (Z.to_nat (mid_point toks - r / 2)) toks in
  let kept_after := skipn (Z.to_nat (mid_point toks + r / 2)) toks in
  exists removed,
    toks = kept_before ++ removed ++ kept_after /\
    truncated_encoded toks r marker = kept_before ++ marker ++ kept_after /\
    len removed = 2 * (r / 2) /\
    len removed = r - r mod 2 /\
    len (truncated_encoded toks r marker) = len toks - 2 * (r / 2) + len marker.
Proof. apply cut_split. Qed.

Lemma drop_all_but_last {A} (l : list A) (d : A) :
  l <> [] -> drop (length l - 1) l = [List.last l d].
Proof.
  induction l as [|t front _] using rev_ind; [done |]. intros _.
  rewrite length_app. simpl.
  rewrite drop_app_length'; [| lia]. by rewrite last_last.
Qed.

(** When the excess reaches the encoded length, the whole content goes: of
    an even number of tokens only the marker is left, of an odd number the
    marker followed by the last token.  On the truncation path the excess is
    above 100, so this is what happens to every longest message of up to
    101 tokens. *)
Theorem short_content_is_cut_whole (toks marker : list Z) (excess : Z) :
  len toks <= excess ->
  let r := tokens_to_remove toks excess in
  r = len toks /\
  truncated_encoded toks r marker = marker ++ skipn (2 * (length toks / 2)) toks /\
  (Z.even (len toks) = true -> truncated_encoded toks r marker = marker) /\
  (Z.odd (len toks) = true ->
     truncated_encoded toks r marker = marker ++ [List.last toks 0]).
Proof.
  intros Hle r.
  assert (Hr : r = len toks) by (unfold r, tokens_to_remove; lia).
  assert (Hlen : 0 <= len toks) by (unfold len; lia).
  assert (Hhalf : len toks / 2 = Z.of_nat (length toks / 2)).
  { unfold len. by rewrite Nat2Z.inj_div. }
  assert (Hcut : truncated_encoded toks r marker
                 = marker ++ skipn (2 * (length toks / 2)) toks).
  { unfold truncated_encoded, mid_point. rewrite Hr.
    rewrite slice_to_firstn, slice_from_skipn.
    - rewrite Z.sub_diag. change (Z.to_nat 0) with 0%nat.
      rewrite take_0, app_nil_l. f_equal. f_equal. rewrite Hhalf. lia.
    - pose proof (Z.mul_div_le (len toks) 2). lia.
    - lia. }
  split_and!; [done | done | |].
  - intros Heven. rewrite Hcut.
    rewrite drop_ge; [by rewrite app_nil_r |].
    apply Z.even_spec in Heven as [k Hk]. unfold len in *.
    assert (length toks = (2 * Z.to_nat k)%nat) as -> by lia.
    rewrite Nat.mul_comm, Nat.div_mul by done. lia.
  - intros Hodd. rewrite Hcut. f_equal.
    apply Z.odd_spec in Hodd as [k Hk]. unfold len in *.
    assert (Hn : length toks = (2 * Z.to_nat k + 1)%nat) by lia.
    assert (Hdiv : (length toks / 2 = Z.to_nat k)%nat).
    { rewrite Hn. rewrite Nat.add_comm, Nat.mul_comm, Nat.div_add by done.
      simpl. lia. }
    rewrite Hdiv.
    assert ((2 * Z.to_nat k)%nat = (length toks - 1)%nat) as -> by lia.
    apply drop_all_but_last. intros ->. simpl in Hn. lia.
Qed.

(** ** The marker in the new content *)

Lemma prefix_app (sub rest : string) : String.prefix sub (sub +:+ rest) = true.
Proof.
  induction sub as [|c sub IH]; [by destruct rest |].
  rewrite str_app_cons. cbn [String.prefix].
  destruct (ascii_dec c c); [done | congruence].
Qed.

Lemma occurs_in_here (sub rest : string) : occurs_in sub (sub +:+ rest) = true.
Proof.
  destruct (sub +:+ rest) eqn:E; cbn [occurs_in]; rewrite <- E, prefix_app; done.
Qed.

Lemma occurs_in_app_r (sub a b : string) :
  occurs_in sub b = true -> occurs_in sub (a +:+ b) = true.
Proof.
  intros H. induction a as [|c a IH]; [done |].
  rewrite str_app_cons. cbn [occurs_in]. rewrite IH. apply orb_true_r.
Qed.

(** The marker text is found in any text built around it. *)
Lemma marker_occurs (before after : string) (removed : Z) :
  occurs_in "tokens truncated]" (before +:+ marker_text removed +:+ after) = true.
Proof.
  apply occurs_in_app_r. unfold marker_text.
  rewrite !str_app_assoc. apply occurs_in_app_r, occurs_in_app_r.
  change (" tokens truncated] ... " +:+ after)
    with (" " +:+ ("tokens truncated]" +:+ (" ... " +:+ after))).
  apply occurs_in_app_r, occurs_in_here.
Qed.

Section marker_in_content.

Variable model_cost : gmap string (gmap string Z).
Variable count_tokens : string -> string -> Z.
Variable encoding_for_model : string -> option Encoding.
Variable gpt_4o : Encoding.

Abbreviation truncate :=
  (truncate_messages model_cost count_tokens encoding_for_model gpt_4o).
Abbreviation budget := (model_input_context_length model_cost).
Abbreviation total := (total_structured_tokens count_tokens).
Abbreviation encoder := (resolve_encoder encoding_for_model gpt_4o).

(** With a tokenizer that decodes piece by piece and gives back what it
    encoded, a truncation keeps a head and a tail of the old content and
    puts the marker text between them: the new content holds the words
    "tokens truncated]". *)
Theorem truncated_content_holds_the_marker s messages model from_agent conv :
  conversation s messages = Some conv ->
  Forall has_content conv ->
  conv <> [] ->
  budget model - 100 < total model conv ->
  decodes_piecewise (encoder model) ->
  exists result s' i d content head cut tail removed new,
    truncate messages model from_agent s = (Ok result, s') /\
    first_longest conv i /\ conv !! i = Some d /\
    dict_get d "content" = Some content /\
    content = head +:+ cut +:+ tail /\
    new = head +:+ marker_text removed +:+ tail /\
    (conversation s' result ≫= fun conv' =>
       conv' !! i ≫= fun d' => dict_get d' "content") = Some new /\
    occurs_in "tokens truncated]" new = true.
Proof.
  unfold conversation. intros Hconv Hc Hne Hover [Happ Hround].
  destruct (lists s !! messages) as [items|] eqn:Hl; [simpl in Hconv | done].
  destruct (truncate_messages_cut model_cost count_tokens encoding_for_model gpt_4o
              s messages model from_agent items conv Hl Hconv Hc Hne Hover)
    as (i & k & d & content & Hfirst & Hi & Hk & Hd & Hcontent & Hrun).
  cbv zeta in Hrun.
  set (toks := encode (encoder model) content) in *.
  set (r := tokens_to_remove toks (excess_tokens (total model conv) (budget model))) in *.
  assert (Hex : 0 <= excess_tokens (total model conv) (budget model))
    by (unfold excess_tokens; lia).
  destruct (cut_split toks (encode (encoder model) (marker_text r)) _ Hex)
    as (removed & Hsplit & Hcut & _).
  fold r in Hsplit, Hcut.
  set (kept_before := take _ toks) in *. set (kept_after := drop _ toks) in *.
  apply mapM_Some in Hconv.
  eexists _, _, i, d, content,
    (decode (encoder model) kept_before), (decode (encoder model) removed),
    (decode (encoder model) kept_after), r, _.
  split; [exact Hrun |]. split_and!; [done | done | done | | reflexivity | |].
  - rewrite <- !Happ, <- Hsplit. unfold toks. by rewrite Hround.
  - simpl. rewrite lookup_insert_eq. simpl.
    assert (Hres : mapM (fun p => <[k := dict_set d "content"
                     (decode (encoder model)
                        (truncated_encoded toks r
                           (encode (encoder model) (marker_text r))))]>
                     (dicts s) !! p) items
                   = Some (rewrite_content items conv k
                     (decode (encoder model)
                        (truncated_encoded toks r
                           (encode (encoder model) (marker_text r))))))
      by (apply mapM_Some; by apply rewrite_content_resolves).
    rewrite Hres. simpl.
    rewrite (rewrite_content_at _ _ _ _ _ _ Hi Hd). simpl.
    rewrite dict_get_set_eq. f_equal.
    by rewrite Hcut, !Happ, Hround.
  - apply marker_occurs.
Qed.

End marker_in_content.

Lemma char_encoding_decodes_piecewise : decodes_piecewise char_encoding.
Proof.
  split.
  - intros a b. simpl. rewrite map_app.
    induction (List.map _ a) as [|c l IH]; [done |].
    simpl. by rewrite IH.
  - intros t. simpl. induction t as [|c t IH]; [done |].
    simpl. rewrite IH. f_equal.
    rewrite N2Z.id. apply ascii_N_embedding.
Defined.

(** ** More on the timeout decorator *)

Module GuardMore.
Import Guard.

Lemma due_target l now seconds func :
  due (join_time now seconds (target l func now)) (target l func now) =
  match func with
  | Returns after _ | Raises after _ => Z.max 0 after <=? Z.max 0 seconds
  | Hangs => false
  end.
Proof.
  unfold due, join_time. destruct func as [after v | after e |]; simpl; [| | done].
  - destruct (Z.max 0 after <=? Z.max 0 seconds) eqn:E.
    + apply Z.leb_le in E. apply Z.leb_le. lia.
    + apply Z.leb_gt in E. apply Z.leb_gt. lia.
  - destruct (Z.max 0 after <=? Z.max 0 seconds) eqn:E.
    + apply Z.leb_le in E. apply Z.leb_le. lia.
    + apply Z.leb_gt in E. apply Z.leb_gt. lia.
Qed.

(** In a well-formed world the decorated call ends as [guard_outcome] says. *)
Lemma wrapper_outcome w seconds func :
  wf w -> (wrapper seconds func w).1 = Some (guard_outcome seconds func).
Proof.
  intros Hwf.
  destruct (GuardFacts.wrapper_slot w seconds func Hwf) as (_ & Hcell & _ & Hres).
  cbv zeta in Hcell, Hres. unfold store_of in Hcell.
  rewrite due_target in Hcell. rewrite Hres, Hcell. clear Hres Hcell.
  unfold guard_outcome.
  destruct func as [after v | after e |]; simpl.
  - destruct (Z.max 0 after <=? Z.max 0 seconds).
    + rewrite lookup_insert_eq. destruct v as [u | e]; [done |].
      simpl. by destruct (is_Exception (exn_class e)).
    + by rewrite lookup_singleton_eq.
  - destruct (Z.max 0 after <=? Z.max 0 seconds); simpl.
    + destruct (is_Exception (exn_class e)) eqn:He.
      * rewrite lookup_insert_eq. simpl. by rewrite He.
      * by rewrite lookup_singleton_eq.
    + by rewrite lookup_singleton_eq.
  - by rewrite lookup_singleton_eq.
Qed.



(** An [InvalidOutputError] raised inside a guarded call that ends in time
    reaches the caller as the same exception, built from the message. *)
Theorem guard_passes_InvalidOutputError w seconds after (e : InvalidOutputError) :
  wf w ->
  Z.max 0 after <= Z.max 0 seconds ->
  (wrapper seconds (Raises after (InvalidOutputError_exn e)) w).1
    = Some (Raise (InvalidOutputError_exn e)) /\
  exn_args (InvalidOutputError_exn e) = [PStr (message e)].
Proof.
  intros Hwf Hin. split; [| done].
  rewrite wrapper_outcome by done. unfold guard_outcome.
  apply Z.leb_le in Hin. by rewrite Hin.
Qed.

End GuardMore.

Lemma uncaught_witness :
  (Guard.wrapper 5 (Guard.Raises 1 (mk_exn KeyboardInterrupt [])) Guard.empty_world).1
  = Some (Guard.Raise Guard.timed_out).
Proof.
  apply (GuardFacts.wrapper_uncaught Guard.empty_world 5 1 (mk_exn KeyboardInterrupt [])).
  - apply empty_world_wf.
  - reflexivity.
Defined.

Lemma detached_witness :
  Guard.cells (Guard.advance 8
                 (Guard.wrapper 5 (Guard.Returns 8 (Guard.Val (PInt 7))) Guard.empty_world).2)
    !! 1%positive = Some (Guard.Val (PInt 7)).
Proof.
  apply (GuardFacts.detached_thread_stores Guard.empty_world 5 8 (Guard.Val (PInt 7))).
  - apply empty_world_wf.
  - simpl. lia.
Defined.

Lemma guard_passes_InvalidOutputError_witness :
  (Guard.wrapper 5 (Guard.Raises 2 (InvalidOutputError_exn sample_error)) Guard.empty_world).1
  = Some (Guard.Raise (InvalidOutputError_exn sample_error)).
Proof.
  apply (GuardMore.guard_passes_InvalidOutputError Guard.empty_world 5 2 sample_error).
  - apply empty_world_wf.
  - simpl. lia.
Defined.

(** ** More on the rendering of InvalidOutputError *)

Lemma lines_sep (a b : string) :
  PyStr.lines (a +:+ String PyStr.LF b) = PyStr.lines a ++ PyStr.lines b.
Proof. unfold PyStr.lines, PyStr.split. apply split_acc_sep. Qed.

Lemma split_acc_length sep s : forall cur,
  length (PyStr.split_acc sep cur s) = S (count_char sep s).
Proof.
  induction s as [|d s IH]; intros cur; cbn [PyStr.split_acc count_char]; [done |].
  destruct (Ascii.eqb d sep); simpl; by rewrite IH.
Qed.

Lemma count_char_app c (a b : string) :
  count_char c (a +:+ b) = (count_char c a + count_char c b)%nat.
Proof.
  induction a as [|d a IH]; [done |].
  rewrite str_app_cons. cbn [count_char]. rewrite IH. lia.
Qed.

(** Whatever the five fields hold, the rendering ends with the three lines
    of the expected schema, the message history and the tool calls, after
    the lines of the message and those of the labelled raw output; it has
    five lines and one more for each line break in the message and in the
    raw output. *)
Theorem rendering_lines_in_general (e : InvalidOutputError) :
  PyStr.lines (InvalidOutputError_str e) =
    PyStr.lines (message e)
    ++ PyStr.lines ("Invalid output: " +:+ output e)
    ++ [ "Expected schema: " +:+ py_repr (PDict (expected_schema e));
         "Messages sent to LLM: " +:+ py_repr (pyval_of_dicts (messages e));
         "Tool calls generated by LLM: " +:+ py_repr (pyval_of_tools (tools e)) ]
  /\
  length (PyStr.lines (InvalidOutputError_str e)) =
    (5 + count_char PyStr.LF (message e) + count_char PyStr.LF (output e))%nat.
Proof.
  assert (Hlines : PyStr.lines (InvalidOutputError_str e) =
    PyStr.lines (message e)
    ++ PyStr.lines ("Invalid output: " +:+ output e)
    ++ [ "Expected schema: " +:+ py_repr (PDict (expected_schema e));
         "Messages sent to LLM: " +:+ py_repr (pyval_of_dicts (messages e));
         "Tool calls generated by LLM: " +:+ py_repr (pyval_of_tools (tools e)) ]).
  { rewrite (proj1 (rendering_lines e)). unfold PyStr.chr.
    change (String PyStr.LF "" +:+ ?x) with (String PyStr.LF x).
    rewrite lines_sep. f_equal.
    rewrite <- str_app_assoc.
    change (String PyStr.LF "" +:+ ?x) with (String PyStr.LF x).
    rewrite lines_sep. f_equal.
    rewrite <- str_app_assoc.
    change (String PyStr.LF "" +:+ ?x) with (String PyStr.LF x).
    rewrite lines_first by (apply no_LF_app; [done | apply no_LF_py_repr]).
    rewrite <- str_app_assoc.
    change (String PyStr.LF "" +:+ ?x) with (String PyStr.LF x).
    rewrite lines_first by (apply no_LF_app; [done | apply no_LF_py_repr]).
    rewrite lines_last by (apply no_LF_app; [done | apply no_LF_py_repr]).
    done. }
  split; [exact Hlines |].
  rewrite Hlines, !length_app. unfold PyStr.lines, PyStr.split.
  rewrite !split_acc_length, count_char_app. simpl. lia.
Qed.

(** ** The text whose tokens are counted *)

Lemma printable_ascii_app (a b : string) :
  printable_ascii (a +:+ b) = printable_ascii a && printable_ascii b.
Proof.
  induction a as [|c a IH]; [done |].
  rewrite str_app_cons. cbn [printable_ascii]. rewrite IH.
  by rewrite andb_assoc.
Qed.

Lemma printable_ascii_json_char c : printable_ascii (PyStr.json_char c) = true.
Proof. destruct c as [[] [] [] [] [] [] [] []]; vm_compute; reflexivity. Qed.

Lemma printable_ascii_json_str s : printable_ascii (PyStr.json_str s) = true.
Proof.
  unfold PyStr.json_str.
  change (String PyStr.DQUOTE (PyStr.json_body s +:+ PyStr.chr PyStr.DQUOTE))
    with (PyStr.chr PyStr.DQUOTE +:+ (PyStr.json_body s +:+ PyStr.chr PyStr.DQUOTE)).
  rewrite !printable_ascii_app.
  assert (H : printable_ascii (PyStr.json_body s) = true).
  { induction s as [|c s IH]; [done |]. cbn [PyStr.json_body].
    by rewrite printable_ascii_app, printable_ascii_json_char, IH. }
  by rewrite H.
Qed.

Lemma printable_ascii_join sep l :
  printable_ascii sep = true ->
  Forall (fun s => printable_ascii s = true) l ->
  printable_ascii (PyStr.join sep l) = true.
Proof.
  intros Hsep. induction 1 as [|s l Hs Hl IH]; [done |].
  cbn [PyStr.join]. destruct l as [|s' l']; [done |].
  by rewrite !printable_ascii_app, Hs, Hsep, IH.
Qed.

(** The text handed to [count_tokens] for a message is made of graphic
    ASCII characters and spaces only, whatever characters the message
    holds: line breaks, control characters and everything above tilde are
    counted in their escaped form. *)
Theorem counted_text_is_printable_ascii (d : dict) :
  printable_ascii (json_dumps d) = true /\
  PyStr.contains_char PyStr.LF (json_dumps d) = false.
Proof.
  assert (H : printable_ascii (json_dumps d) = true).
  { unfold json_dumps. rewrite !printable_ascii_app.
    rewrite printable_ascii_join; [done | done |].
    apply Forall_fmap, Forall_forall. intros [k v] _. cbn [fst snd compose].
    unfold compose. cbn [fst snd].
    by rewrite !printable_ascii_app, !printable_ascii_json_str. }
  split; [done |].
  revert H. generalize (json_dumps d). intros s.
  induction s as [|c s IH]; [done |]. cbn [printable_ascii PyStr.contains_char].
  intros H. apply andb_prop in H as [Hc Hs].
  destruct (Ascii.eqb PyStr.LF c) eqn:E; [| by apply IH].
  apply Ascii.eqb_eq in E. subst c. done.
Qed.

(** ** Runs that exercise the further properties *)

Lemma failed_call_witness :
  dicts (demo_truncate 1%positive "tiny" false missing_content_state).2
  = dicts missing_content_state.
Proof.
  apply (failed_call_changes_nothing
           demo_model_cost demo_count_tokens demo_encoding_for_model char_encoding
           missing_content_state 1%positive "tiny" false
           (demo_truncate 1%positive "tiny" false missing_content_state).1
           (demo_truncate 1%positive "tiny" false missing_content_state).2).
  - apply surjective_pairing.
  - vm_compute. reflexivity.
Defined.

Lemma only_content_witness :
  dom (dicts (demo_truncate 1%positive "openai/tiny" false demo_state).2)
  = dom (dicts demo_state).
Proof.
  apply (only_content_entries_change
           demo_model_cost demo_count_tokens demo_encoding_for_model char_encoding
           demo_state 1%positive "openai/tiny" false
           (demo_truncate 1%positive "openai/tiny" false demo_state).1
           (demo_truncate 1%positive "openai/tiny" false demo_state).2).
  apply surjective_pairing.
Defined.

Lemma empty_conversation_witness :
  exists s',
    demo_truncate 1%positive "bedrock/sd3" false empty_conversation_state
    = (Raised ValueError, s').
Proof.
  destruct (empty_conversation_raises_ValueError
              demo_model_cost demo_count_tokens demo_encoding_for_model char_encoding
              empty_conversation_state 1%positive "bedrock/sd3" false)
    as (s' & Hrun & _).
  - vm_compute. reflexivity.
  - vm_compute. reflexivity.
  - exists s'. exact Hrun.
Defined.

Lemma missing_content_witness :
  exists s',
    demo_truncate 1%positive "tiny" false missing_content_state
    = (Raised KeyError, s').
Proof.
  destruct (missing_content_raises_KeyError
              demo_model_cost demo_count_tokens demo_encoding_for_model char_encoding
              missing_content_state 1%positive "tiny" false
              [ [("role", "user"); ("content", repeat_char "a" 400)];
                [("role", "tool")] ])
    as (s' & Hrun & _).
  - vm_compute. reflexivity.
  - vm_compute. reflexivity.
  - apply Exists_cons_tl, Exists_cons_hd. reflexivity.
  - exists s'. exact Hrun.
Defined.

Lemma provider_prefix_witness :
  bare_model "gpt-4o" = "gpt-4o" /\
  model_input_context_length demo_model_cost "azure/eu/tiny"
  = model_input_context_length demo_model_cost "eu/tiny".
Proof.
  destruct (provider_prefix_is_ignored demo_model_cost demo_encoding_for_model
              char_encoding "azure" "gpt-4o") as (_ & _ & _ & _ & Hplain).
  destruct (provider_prefix_is_ignored demo_model_cost demo_encoding_for_model
              char_encoding "azure" "eu/tiny") as (_ & Hbudget & _).
  split; [apply Hplain; reflexivity | exact Hbudget].
Defined.

Lemma cut_witness :
  exists removed : list Z,
    [1; 2; 3; 4; 5; 6; 7] = [1; 2] ++ removed ++ [5; 6; 7] /\ len removed = 2.
Proof.
  destruct (cut_takes_out_an_even_number [1; 2; 3; 4; 5; 6; 7] [0] 3)
    as (removed & Hsplit & _ & Hlen & _).
  - lia.
  - exists removed. split; [exact Hsplit | exact Hlen].
Defined.

Lemma whole_cut_witness :
  truncated_encoded [1; 2; 3] (tokens_to_remove [1; 2; 3] 101) [0] = [0; 3].
Proof.
  destruct (short_content_is_cut_whole [1; 2; 3] [0] 101) as (_ & _ & _ & Hodd).
  - vm_compute. discriminate.
  - apply Hodd. reflexivity.
Defined.

Lemma marker_witness :
  exists result s' new,
    demo_truncate 1%positive "openai/tiny" false demo_state = (Ok result, s') /\
    occurs_in "tokens truncated]" new = true /\
    (conversation s' result ≫= fun conv' =>
       conv' !! 1%nat ≫= fun d' => dict_get d' "content") = Some new.
Proof.
  destruct (truncated_content_holds_the_marker
              demo_model_cost demo_count_tokens demo_encoding_for_model char_encoding
              demo_state 1%positive "openai/tiny" false demo_conversation)
    as (result & s' & i & d & content & head & cut & tail & removed & new
        & Hrun & Hfirst & Hd & _ & _ & _ & Hnew & Hocc).
  - vm_compute. reflexivity.
  - apply demo_has_content.
  - discriminate.
  - vm_compute. reflexivity.
  - apply char_encoding_decodes_piecewise.
  - exists result, s', new. split; [exact Hrun |]. split; [exact Hocc |].
    assert (i = 1%nat) as <-; [| exact Hnew].
    destruct Hfirst as (n & Hn & Hle & _).
    destruct i as [|[|i]]; [| done | done].
    vm_compute in Hn. injection Hn as <-.
    specialize (Hle 1%nat 400 eq_refl). lia.
Defined.
